(** * imgly-sdk-html5: the render pipeline and the canvas renderer

    A shallow embedding of
      - [src/js/renderers/canvas-renderer.js] (class [CanvasRenderer]),
      - [lib/render-image.js] (class [RenderImage]) and
      - [imglykit.js] (method [ImglyKit.render]),
    with the properties of the rendering pipeline proved about it.

    Conventions.  Pixel sizes and coordinates are integers ([Z]); the
    fractional numbers a JavaScript [Number] may hold are outside the
    embedding.  JavaScript objects that are shared by reference (canvas
    elements) live in an explicit store and are named by their address.
    A promise is embedded by its outcome and, where [bluebird.map] looks at
    it, by whether it is still pending when the call that made it returns.

    The file has two parts: the embedding (definitions only), then the
    lemmas and theorems about it. *)

From Stdlib Require Import ZArith String List Bool Lia.
From stdpp Require Import base option gmap.

Local Open Scope Z_scope.

(* ================================================================== *)
(** * Part I: the embedding *)
(* ================================================================== *)

(** ** Errors and outcomes *)

(** A JavaScript [Error], by its message. *)
Definition Error := string.

(** How a promise settles (or how a fallible call ends). *)
Inductive Outcome (A : Type) : Type :=
| Fulfilled (a : A)
| Rejected (e : Error).
Arguments Fulfilled {A} a.
Arguments Rejected {A} e.

Definition is_fulfilled {A} (o : Outcome A) : bool :=
  match o with Fulfilled _ => true | Rejected _ => false end.

(** ** Vector2 *)

(** Modelled from the spec: [lib/math/vector2.js] is not among the sources.
    The spec describes a size as "a 2D vector of width, height"; the class
    is used here through [new Vector2(x, y)], the fields [x], [y] and
    [equals]. *)
Record Vector2 := mkVector2 { x : Z; y : Z }.

Module Vector2.
(** Modelled from the spec: [Vector2.equals] ("if resolved size equals
    current size"), componentwise equality. *)
Definition equals (a b : Vector2) : bool :=
  (x a =? x b) && (y a =? y b).
End Vector2.

(** ** The 2D canvas primitives used by the canvas renderer *)

(** What the platform (browser or node-canvas) fixes: the type of a pixel,
    the value of a cleared (transparent) pixel, the compositing of a source
    pixel over a destination pixel (the default [source-over] mode), the
    picture a scaling [drawImage] paints, and the size a canvas element has
    when it is created.

    [scaled source sw sh dw dh u v] is the pixel painted at the position
    [(u, v)] of a destination rectangle of size [dw x dh] when a source
    rectangle of size [sw x sh] is drawn into it; [source] gives the
    pixels of the source relative to the origin of the source rectangle.
    Scaling smooths the picture, and which filter does so is the
    platform's choice. *)
Class Platform := {
  Pixel : Type;
  transparent : Pixel;
  over : Pixel -> Pixel -> Pixel;
  scaled : (Z -> Z -> Pixel) -> Z -> Z -> Z -> Z -> Z -> Z -> Pixel;
  default_width : Z;
  default_height : Z
}.

(** Drawing over a cleared pixel leaves the source pixel. *)
Class PlatformLaws (P : Platform) : Prop := {
  over_transparent : forall s : Pixel, over s transparent = s
}.

Module Canvas2D.
Section Canvas2D.
Context {P : Platform}.

(** Something [drawImage] can read from: an image or a canvas. *)
Record Bitmap := mkBitmap {
  b_width : Z;
  b_height : Z;
  b_pixel : Z -> Z -> Pixel
}.

(** One call of [context.drawImage], as issued: the canvas drawn from
    ([None] for an image that is not a canvas of the store), the source
    rectangle and the destination rectangle. *)
Record DrawCall := mkDrawCall {
  d_source : option nat;
  d_sx : Z; d_sy : Z; d_sw : Z; d_sh : Z;
  d_dx : Z; d_dy : Z; d_dw : Z; d_dh : Z
}.

(** A canvas element: its size, its bitmap, and the [drawImage] calls made
    on its 2D context so far (a history kept for specification only). *)
Record Canvas := mkCanvas {
  width : Z;
  height : Z;
  pixel : Z -> Z -> Pixel;
  calls : list DrawCall
}.

Definition bitmap_of (c : Canvas) : Bitmap :=
  mkBitmap (width c) (height c) (pixel c).

(** A canvas element as [document.createElement("canvas")] or
    [new Canvas()] returns it. *)
Definition blank : Canvas :=
  mkCanvas default_width default_height (fun _ _ => transparent) [].

(** [canvas.width = w] and [canvas.height = h]: the size is stored and the
    bitmap is cleared.  Sizes are kept as integers here; the attribute of
    the element is an [unsigned long] that keeps the number assigned to it
    only from 0 to 2147483647, so a statement about a size assigned from
    outside takes that range as a hypothesis. *)
Definition set_width (w : Z) (c : Canvas) : Canvas :=
  mkCanvas w (height c) (fun _ _ => transparent) (calls c).

Definition set_height (h : Z) (c : Canvas) : Canvas :=
  mkCanvas (width c) h (fun _ _ => transparent) (calls c).

Definition in_rect (px py rx ry rw rh : Z) : bool :=
  (rx <=? px) && (px <? rx + rw) && (ry <=? py) && (py <? ry + rh).

(** What [drawImage] paints at the position [(u, v)] of the destination
    rectangle: when the two rectangles have the same size, the source pixel
    at the same position of the source rectangle; otherwise the picture is
    scaled and the platform's filter says what is painted. *)
Definition painted (src : Bitmap) (sx sy sw sh dw dh u v : Z) : Pixel :=
  if (sw =? dw) && (sh =? dh) then b_pixel src (sx + u) (sy + v)
  else scaled (fun u' v' => b_pixel src (sx + u') (sy + v')) sw sh dw dh u v.

(** [context.drawImage(src, sx, sy, sw, sh, dx, dy, dw, dh)]: every pixel of
    the destination rectangle takes what is painted there, composited over
    what was there.  The exceptions of [drawImage] (a source canvas without
    pixels, an image that is not usable) are not part of the embedding. *)
Definition drawImage9 (who : option nat) (src : Bitmap)
    (sx sy sw sh dx dy dw dh : Z) (c : Canvas) : Canvas :=
  mkCanvas (width c) (height c)
    (fun px py =>
       if in_rect px py dx dy dw dh
       then over (painted src sx sy sw sh dw dh (px - dx) (py - dy))
                 (pixel c px py)
       else pixel c px py)
    (calls c ++ [mkDrawCall who sx sy sw sh dx dy dw dh]).

(** [context.drawImage(src, dx, dy)]: the whole source at its own size. *)
Definition drawImage3 (who : option nat) (src : Bitmap) (dx dy : Z)
    (c : Canvas) : Canvas :=
  drawImage9 who src 0 0 (b_width src) (b_height src)
             dx dy (b_width src) (b_height src) c.

(** What two canvases show: the size and every pixel inside it. *)
Definition same_picture (a b : Canvas) : Prop :=
  width a = width b /\ height a = height b /\
  forall px py, 0 <= px < width a -> 0 <= py < height a ->
                pixel a px py = pixel b px py.

End Canvas2D.
End Canvas2D.

(** ** The canvas renderer *)

Module CanvasRenderer.
Import Canvas2D.
Section CanvasRenderer.
Context {P : Platform}.

(** A [CanvasRenderer] object together with the canvas elements it can
    reach: [store] maps the address of a canvas element to the element,
    [_canvas] is the address of the active surface and [_context] the
    address of the canvas whose 2D context the renderer holds. *)
Record State := mkState {
  store : gmap nat Canvas;
  _canvas : nat;
  _context : nat
}.

(** Reading a canvas element through its address.  An address held by a
    well-formed renderer is always allocated ([wf] below), so the default
    is never used there. *)
Definition read (st : State) (a : nat) : Canvas :=
  default blank (store st !! a).

Definition write (a : nat) (f : Canvas -> Canvas) (st : State) : State :=
  mkState (alter f a (store st)) (_canvas st) (_context st).

(** The renderer's own canvas and context are allocated. *)
Definition wf (st : State) : Prop :=
  is_Some (store st !! _canvas st) /\ is_Some (store st !! _context st).

(** Modelled from the spec: [Renderer.createCanvas] is defined in the base
    class [renderers/renderer.js], which is not among the sources.  It
    "allocates a new surface": a canvas element at an address that was not
    in use. *)
Definition createCanvas (st : State) : nat * State :=
  let a := fresh (dom (store st)) in
  (a, mkState (<[a := blank]> (store st)) (_canvas st) (_context st)).

(** Modelled from the spec: [Renderer.setCanvas] (base class, not among the
    sources) "replaces the backend's active surface with the new one"; the
    context is the one of the new canvas. *)
Definition setCanvas (a : nat) (st : State) : State :=
  mkState (store st) a a.

(** Modelled from the spec: the constructor of the base class (not among
    the sources) creates the surface at the construction size ("capture the
    source image's initial size as the renderer's construction size"). *)
Definition new (dimensions : Vector2) : State :=
  let '(a, st) := createCanvas (mkState ∅ 0%nat 0%nat) in
  setCanvas a (write a (set_height (y dimensions))
                 (write a (set_width (x dimensions)) st)).

(** Modelled from the spec: [Renderer.getSize] (base class) is the "current
    working size", which "always matches the surface's actual pixel
    dimensions". *)
Definition getSize (st : State) : Vector2 :=
  mkVector2 (width (read st (_canvas st))) (height (read st (_canvas st))).

(** Modelled from the spec: [Renderer.renderFinal] (base class) is "a no-op
    for backends with no batching". *)
Definition renderFinal (st : State) : Outcome unit * State :=
  (Fulfilled tt, st).

(** What a canvas element offers to [isSupported]: [getContext], when the
    element has one, says for a context type whether a context is
    returned. *)
Record Element := mkElement {
  getContext : option (string -> bool)
}.

(** [static isSupported ()]:
    [!!(elem.getContext && elem.getContext("2d"))] for the element
    [this.prototype.createCanvas()] returns. *)
Definition isSupported (elem : Element) : bool :=
  match getContext elem with
  | None => false
  | Some get => get "2d"%string
  end.

(** [static get identifier ()] *)
Definition identifier : string := "canvas".

(** [_getContext ()]: the 2D context of the active canvas, named by the
    address of that canvas. *)
Definition _getContext (st : State) : nat := _canvas st.

(** [drawImage (image)]: one [drawImage] call on the renderer's context,
    from the whole image to the whole active canvas. *)
Definition drawImage (image : Bitmap) (st : State) : State :=
  write (_context st)
        (drawImage9 None image 0 0 (b_width image) (b_height image)
                    0 0 (width (read st (_canvas st)))
                        (height (read st (_canvas st))))
        st.

(** [resizeTo (dimensions)]. *)
Definition resizeTo (dimensions : Vector2) (st : State) : State :=
  (* var newCanvas = this.createCanvas(); *)
  let '(newCanvas, st1) := createCanvas st in
  (* newCanvas.width = dimensions.x; newCanvas.height = dimensions.y; *)
  let st2 := write newCanvas (set_width (x dimensions)) st1 in
  let st3 := write newCanvas (set_height (y dimensions)) st2 in
  (* var newContext = newCanvas.getContext("2d"); *)
  let newContext := newCanvas in
  (* newContext.drawImage(this._canvas, 0, 0, this._canvas.width,
       this._canvas.height, 0, 0, newCanvas.width, newCanvas.height); *)
  let old := read st3 (_canvas st3) in
  let st4 :=
    write newContext
          (drawImage9 (Some (_canvas st3)) (bitmap_of old)
                      0 0 (width old) (height old)
                      0 0 (width (read st3 newCanvas))
                          (height (read st3 newCanvas)))
          st3 in
  (* this.setCanvas(newCanvas); *)
  setCanvas newCanvas st4.

(** [cloneCanvas ()]: the address of the clone and the state after the
    call. *)
Definition cloneCanvas (st : State) : nat * State :=
  (* var canvas = this.createCanvas();
     var context = canvas.getContext("2d"); *)
  let '(canvas, st1) := createCanvas st in
  let context := canvas in
  (* canvas.width = this._canvas.width;
     canvas.height = this._canvas.height; *)
  let st2 := write canvas (set_width (width (read st1 (_canvas st1)))) st1 in
  let st3 := write canvas (set_height (height (read st2 (_canvas st2)))) st2 in
  (* context.drawImage(this._canvas, 0, 0); *)
  let st4 :=
    write context
          (drawImage3 (Some (_canvas st3))
                      (bitmap_of (read st3 (_canvas st3))) 0 0)
          st3 in
  (* return canvas; *)
  (canvas, st4).

End CanvasRenderer.
End CanvasRenderer.

(** ** The renderer interface *)

Module Renderer.
Section Renderer.
Context {P : Platform}.

(** What [RenderImage] and [ImglyKit] call on a renderer, whichever of the
    two classes it is an object of.  [R] is the type of renderer objects
    (with all they own), [newWebGLRenderer] and [newCanvasRenderer] are the
    constructors [new WebGLRenderer(dimensions)] and
    [new CanvasRenderer(dimensions)], [S] is what [getCanvas] gives.  The
    exceptions that a constructor or [drawImage] may raise are not part of
    the embedding. *)
Class Ops (R S : Type) := {
  newWebGLRenderer : Vector2 -> R;
  newCanvasRenderer : Vector2 -> R;
  drawImage : Canvas2D.Bitmap -> R -> R;
  renderFinal : R -> Outcome unit * R;
  getSize : R -> Vector2;
  resizeTo : Vector2 -> R -> Outcome unit * R;
  getCanvas : R -> S
}.

(** Renderer objects of the two classes. *)
Inductive Object :=
| WebGL (size : Vector2)
| Canvas (st : CanvasRenderer.State).

(** The two classes behind the interface.
    Modelled from the spec: [renderers/webgl-renderer.js] is not among the
    sources; the accelerated backend is "an interchangeable peer with an
    equivalent contract" whose "internal shader/pass management is out of
    scope", so only its working size is kept.  [getCanvas] of the base
    class "returns the readable output artifact": the active canvas. *)
#[global] Instance object_ops : Ops Object (option Canvas2D.Canvas) := {
  newWebGLRenderer d := WebGL d;
  newCanvasRenderer d := Canvas (CanvasRenderer.new d);
  drawImage image r :=
    match r with
    | WebGL d => WebGL d
    | Canvas st => Canvas (CanvasRenderer.drawImage image st)
    end;
  renderFinal r :=
    match r with
    | WebGL d => (Fulfilled tt, WebGL d)
    | Canvas st =>
        let '(o, st') := CanvasRenderer.renderFinal st in (o, Canvas st')
    end;
  getSize r :=
    match r with
    | WebGL d => d
    | Canvas st => CanvasRenderer.getSize st
    end;
  resizeTo d r :=
    match r with
    | WebGL _ => (Fulfilled tt, WebGL d)
    | Canvas st => (Fulfilled tt, Canvas (CanvasRenderer.resizeTo d st))
    end;
  getCanvas r :=
    match r with
    | WebGL _ => None
    | Canvas st =>
        Some (CanvasRenderer.read st (CanvasRenderer._canvas st))
    end
}.

End Renderer.
End Renderer.

(** ** Operations and dimensions *)

(** An operation of the stack, by the two methods [RenderImage] calls.
    [validateSettings ()] gets no argument; [render (renderer)] works on
    the renderer it is given and may leave it changed also when it
    rejects.  Both return a promise, given by how it settles and by
    whether it is still pending when the method returns
    ([validation_pending], [render_pending]): the promise of an operation
    that finishes its work later (it loads an image first, say) is pending;
    a promise that [bluebird] made and that was resolved or rejected
    before the method returned is settled, and a plain value and a
    [throw] count as settled too. *)
Module Operation.
Record t (R : Type) := mk {
  validateSettings : Outcome unit;
  render : R -> Outcome unit * R;
  validation_pending : bool;
  render_pending : bool
}.
Arguments mk {R} _ _ _ _.
Arguments validateSettings {R} _.
Arguments render {R} _ _.
Arguments validation_pending {R} _.
Arguments render_pending {R} _.

(** The settings of an operation are valid when [validateSettings ()] is
    fulfilled, invalid when it is rejected. *)
Definition valid {R} (op : t R) : Prop :=
  validateSettings op = Fulfilled tt.

Definition invalid {R} (op : t R) : Prop :=
  exists e, validateSettings op = Rejected e.
End Operation.

(** [lib/image-dimensions.js] is not among the sources: an
    [ImageDimensions] object is taken with its method
    [calculateFinalDimensions (initialDimensions)], which resolves the
    requested final size against a size or fails. *)
Module ImageDimensions.
Record t := mk {
  calculateFinalDimensions : Vector2 -> Outcome Vector2
}.
End ImageDimensions.

(** ** What is observed of a run *)

(** The calls made by [ImglyKit.render], the [RenderImage] constructor and
    [RenderImage.render], in the order they are made.  An operation is
    named by its index in the stack. *)
Inductive Event :=
| EvExporterValidateSettings
| EvNewImageDimensions
| EvWebGLIsSupported
| EvCanvasIsSupported
| EvNewWebGLRenderer (d : Vector2)
| EvNewCanvasRenderer (d : Vector2)
| EvDrawImage
| EvValidateSettings (i : nat)
| EvRenderInvoked (i : nat)
| EvRenderSettled (i : nat) (ok : bool)
| EvRenderFinal
| EvGetSize
| EvCalculateFinalDimensions (initialSize : Vector2)
| EvResizeTo (d : Vector2)
| EvGetCanvas
| EvExport.


Definition is_operation_render (e : Event) : bool :=
  match e with
  | EvRenderInvoked _ | EvRenderSettled _ _ => true
  | _ => false
  end.

Definition other_event (e : Event) : Prop := is_operation_render e = false.

(** The indices of the operations whose [render] was invoked, in the order
    of the invocations. *)
Fixpoint invoked (t : list Event) : list nat :=
  match t with
  | [] => []
  | EvRenderInvoked i :: t' => i :: invoked t'
  | _ :: t' => invoked t'
  end.

(** The arguments of the [resizeTo] calls, in order. *)
Fixpoint resizes (t : list Event) : list Vector2 :=
  match t with
  | [] => []
  | EvResizeTo d :: t' => d :: resizes t'
  | _ :: t' => resizes t'
  end.

(** The operations whose [render] call is in flight after the events [t]:
    invoked and not yet settled. *)
Fixpoint in_flight_from (acc : list nat) (t : list Event) : list nat :=
  match t with
  | [] => acc
  | EvRenderInvoked i :: t' => in_flight_from (acc ++ [i]) t'
  | EvRenderSettled i _ :: t' =>
      in_flight_from (List.filter (fun j => negb (Nat.eqb i j)) acc) t'
  | _ :: t' => in_flight_from acc t'
  end.

Definition in_flight (t : list Event) : list nat := in_flight_from [] t.

(** ** The environment a [RenderImage] is constructed in *)

(** [webgl_isSupported] is the answer of [WebGLRenderer.isSupported()]
    (class not among the sources); [canvas_element] is the element
    [CanvasRenderer.isSupported()] probes; [newImageDimensions] is
    [new ImageDimensions(dimensions)], which may throw. *)
Record Environment := mkEnvironment {
  webgl_isSupported : bool;
  canvas_element : CanvasRenderer.Element;
  newImageDimensions : option string -> Outcome ImageDimensions.t
}.

(** ** RenderImage *)

Module RenderImage.
Section RenderImage.
Context {P : Platform} {R S : Type} {RO : Renderer.Ops R S}.

(** The fields of a constructed [RenderImage].  [_renderer] is [null] only
    inside the constructor, before [_initRenderer] has run: a constructed
    object always has a renderer. *)
Record t := mk {
  _options_preferredRenderer : option string;
  _webglEnabled : bool;
  _renderer : R;
  _image : Canvas2D.Bitmap;
  _stack : list (Operation.t R);
  _dimensions : ImageDimensions.t;
  _initialDimensions : Vector2
}.

Definition set_renderer (r : R) (self : t) : t :=
  mk (_options_preferredRenderer self) (_webglEnabled self) r
     (_image self) (_stack self) (_dimensions self)
     (_initialDimensions self).

(** *** Promise chains

    A computation on [this]: its outcome, the object afterwards and the
    calls it made.  [bind] is [.then]: the continuation runs when the
    promise is fulfilled; a rejection is passed on and what was done stays
    done. *)
Definition M (A : Type) : Type := t -> Outcome A * t * list Event.

Definition ret {A} (a : A) : M A := fun self => (Fulfilled a, self, []).

Definition bind {A B} (m : M A) (k : A -> M B) : M B :=
  fun self =>
    match m self with
    | (Fulfilled a, self1, t1) =>
        let '(o, self2, t2) := k a self1 in (o, self2, t1 ++ t2)
    | (Rejected e, self1, t1) => (Rejected e, self1, t1)
    end.

Definition emit (e : Event) : M unit := fun self => (Fulfilled tt, self, [e]).

Definition settle {A} (o : Outcome A) : M A := fun self => (o, self, []).

(** A method call on [self._renderer]. *)
Definition on_renderer {A} (f : R -> Outcome A * R) : M A :=
  fun self => let '(o, r) := f (_renderer self) in (o, set_renderer r self, []).

Notation "'let*' x := m 'in' k" := (bind m (fun x => k))
  (at level 10, x name, m at level 100, k at level 200).
Notation "m >> k" := (bind m (fun _ => k))
  (at level 65, right associativity).

(** *** [bluebird.map]

    [bluebird] is a dependency, not part of the repository.
    [bluebird.map(array, mapper, options)] calls [mapper(item, index)] on
    the elements of the array; the promise it returns is fulfilled when
    every mapper promise is fulfilled and rejected as soon as one is
    rejected, after which no mapper is called any more.  What a mapper
    returns is looked at when it returns: a promise that has settled (or a
    plain value) counts at once, a promise that is pending counts when it
    settles.  [render] ignores the array of results, so the promise of
    [bluebird.map] is taken without its value. *)

(** What a mapper returns: a promise that has settled, or a pending
    promise with what happens until it settles. *)
Inductive Promise (B : Type) : Type :=
| Settled (o : Outcome B)
| Pending (settles : M B).
Arguments Settled {B} o.
Arguments Pending {B} settles.

Definition await {B} (p : Promise B) : M B :=
  match p with
  | Settled o => settle o
  | Pending settles => settles
  end.

(** The [options] of [bluebird.map] as [render] passes them: none, or
    [{ concurrency: 1 }]. *)
Inductive MapOptions :=
| no_options
| concurrency_1.

(** Without [options]: the mapper is called on every element in index
    order, whether or not earlier promises are pending; a settled rejection
    rejects the map at once and ends the calls.  The promises that were
    pending settle afterwards (here: in the order they were made; the code
    has no say in that order), and the first to be rejected rejects the
    map.  What promises that are still pending then do is not followed. *)
Fixpoint call_all {A B} (i : nat) (array : list A)
    (mapper : A -> nat -> M (Promise B)) : M (list (M B)) :=
  match array with
  | [] => ret []
  | item :: rest =>
      let* p := mapper item i in
      match p with
      | Settled o => settle o >> call_all (Datatypes.S i) rest mapper
      | Pending settles =>
          let* later := call_all (Datatypes.S i) rest mapper in
          ret (settles :: later)
      end
  end.

Fixpoint settle_all {B} (pending : list (M B)) : M unit :=
  match pending with
  | [] => ret tt
  | settles :: rest => settles >> settle_all rest
  end.

(** The elements of an array from index [i] on, with their indices. *)
Fixpoint indexed {A} (i : nat) (array : list A) : list (nat * A) :=
  match array with
  | [] => []
  | item :: rest => (i, item) :: indexed (Datatypes.S i) rest
  end.

(** With [{ concurrency: 1 }]: the mapper is called in index order as long
    as no promise is pending.  Once a mapper has returned a pending
    promise, the elements after it are put on a queue, and each time the
    pending promise is fulfilled the next element is taken from the END of
    the queue ([queue.pop()]), so that the elements that had to wait are
    taken last to first, each after the one before has settled. *)
Fixpoint take_in_turn {A B} (queue : list (nat * A))
    (mapper : A -> nat -> M (Promise B)) : M unit :=
  match queue with
  | [] => ret tt
  | (i, item) :: rest =>
      let* p := mapper item i in
      await p >> take_in_turn rest mapper
  end.

Fixpoint map_one_at_a_time {A B} (i : nat) (array : list A)
    (mapper : A -> nat -> M (Promise B)) : M unit :=
  match array with
  | [] => ret tt
  | item :: rest =>
      let* p := mapper item i in
      match p with
      | Settled o => settle o >> map_one_at_a_time (Datatypes.S i) rest mapper
      | Pending settles =>
          settles >> take_in_turn (rev (indexed (Datatypes.S i) rest)) mapper
      end
  end.

Definition bluebird_map {A B} (array : list A)
    (mapper : A -> nat -> M (Promise B)) (options : MapOptions) : M unit :=
  match options with
  | no_options => let* pending := call_all 0 array mapper in settle_all pending
  | concurrency_1 => map_one_at_a_time 0 array mapper
  end.

(** The order in which [bluebird.map] with [{ concurrency: 1 }] takes the
    elements of an array when it is known of each element whether its
    promise is pending: index order up to and including the first element
    with a pending promise, then the other elements from the last
    backwards. *)
Fixpoint taken_from {A} (pending : A -> bool) (i : nat) (array : list A)
    : list (nat * A) :=
  match array with
  | [] => []
  | item :: rest =>
      (i, item) ::
      (if pending item then rev (indexed (Datatypes.S i) rest)
       else taken_from pending (Datatypes.S i) rest)
  end.

(** *** [_initRenderer ()]

    Run inside the constructor, on the fields set so far: the renderer
    chosen and the value of [_webglEnabled], or the error thrown. *)
Definition _initRenderer (env : Environment)
    (preferredRenderer : option string) (initialDimensions : Vector2)
    (image : Canvas2D.Bitmap) : Outcome (R * bool) * list Event :=
  let canvas_wanted :=
    match preferredRenderer with
    | Some s => String.eqb s "canvas"
    | None => false
    end in
  (* if (WebGLRenderer.isSupported() &&
         this._options.preferredRenderer !== "canvas") *)
  if webgl_isSupported env && negb canvas_wanted then
    (Fulfilled
       (Renderer.drawImage image (Renderer.newWebGLRenderer initialDimensions),
        true),
     [EvWebGLIsSupported; EvNewWebGLRenderer initialDimensions; EvDrawImage])
  (* else if (CanvasRenderer.isSupported()) *)
  else if CanvasRenderer.isSupported (canvas_element env) then
    (Fulfilled
       (Renderer.drawImage image (Renderer.newCanvasRenderer initialDimensions),
        false),
     [EvWebGLIsSupported; EvCanvasIsSupported;
      EvNewCanvasRenderer initialDimensions; EvDrawImage])
  (* if (this._renderer === null) throw new Error(...) *)
  else
    (Rejected "Neither Canvas nor WebGL renderer are supported."%string,
     [EvWebGLIsSupported; EvCanvasIsSupported]).

(** *** [constructor (image, operationsStack, dimensions, preferredRenderer)] *)
Definition new (env : Environment) (image : Canvas2D.Bitmap)
    (operationsStack : list (Operation.t R)) (dimensions : option string)
    (preferredRenderer : option string) : Outcome t * list Event :=
  match newImageDimensions env dimensions with
  | Rejected e => (Rejected e, [EvNewImageDimensions])
  | Fulfilled dims =>
      let initialDimensions :=
        mkVector2 (Canvas2D.b_width image) (Canvas2D.b_height image) in
      match _initRenderer env preferredRenderer initialDimensions image with
      | (Rejected e, tr) => (Rejected e, EvNewImageDimensions :: tr)
      | (Fulfilled (renderer, webgl), tr) =>
          (Fulfilled (mk preferredRenderer webgl renderer image
                         operationsStack dims initialDimensions),
           EvNewImageDimensions :: tr)
      end
  end.

(** *** [render ()] *)

(** [function (operation) { return operation.validateSettings(); }] *)
Definition validate_mapper (operation : Operation.t R) (i : nat)
    : M (Promise unit) :=
  emit (EvValidateSettings i) >>
  ret (if Operation.validation_pending operation
       then Pending (settle (Operation.validateSettings operation))
       else Settled (Operation.validateSettings operation)).

(** What [operation.render(self._renderer)] has done to the renderer when
    its promise settles, and how the promise settles. *)
Definition settle_render (operation : Operation.t R) (i : nat) : M unit :=
  fun self =>
    let '(o, r) := Operation.render operation (_renderer self) in
    (o, set_renderer r self, [EvRenderSettled i (is_fulfilled o)]).

(** [function (operation) { return operation.render(self._renderer); }]:
    a call whose promise is pending is invoked now and settles later; a
    call whose promise has settled has done its work when it returns. *)
Definition render_mapper (operation : Operation.t R) (i : nat)
    : M (Promise unit) :=
  emit (EvRenderInvoked i) >>
  if Operation.render_pending operation then
    ret (Pending (settle_render operation i))
  else
    fun self =>
      let '(o, self', t) := settle_render operation i self in
      (Fulfilled (Settled o), self', t).

(** The last [.then] of [render]: the resize decision. *)
Definition resize_step : M unit :=
  fun self =>
    (* var initialSize = self._renderer.getSize(); *)
    let initialSize := Renderer.getSize (_renderer self) in
    (* var finalDimensions =
         self._dimensions.calculateFinalDimensions(initialSize); *)
    match ImageDimensions.calculateFinalDimensions (_dimensions self)
            initialSize with
    | Rejected e =>
        (Rejected e, self, [EvGetSize; EvCalculateFinalDimensions initialSize])
    | Fulfilled finalDimensions =>
        (* if (finalDimensions.equals(initialSize)) return; *)
        if Vector2.equals finalDimensions initialSize then
          (Fulfilled tt, self,
           [EvGetSize; EvCalculateFinalDimensions initialSize])
        (* return self._renderer.resizeTo(finalDimensions); *)
        else
          let '(o, r) :=
            Renderer.resizeTo finalDimensions (_renderer self) in
          (o, set_renderer r self,
           [EvGetSize; EvCalculateFinalDimensions initialSize;
            EvResizeTo finalDimensions])
    end.

(** The first [.then] of [render]: the operations, then [renderFinal]. *)
Definition render_step : M unit :=
  fun self =>
    (bluebird_map (_stack self) render_mapper concurrency_1 >>
     emit EvRenderFinal >>
     on_renderer Renderer.renderFinal) self.

Definition validate_step : M unit :=
  fun self => bluebird_map (_stack self) validate_mapper no_options self.

(** [render ()]: [bluebird.map(...).then(...).then(...)]; the chain up
    to the last [.then] is named for the statements about the resize. *)
Definition before_resize : M unit :=
  validate_step >> render_step.

Definition render : M unit :=
  before_resize >> resize_step.

(** The outcome of a run, the object after it and the calls it made. *)
Definition outcome_of {A} (res : Outcome A * t * list Event) : Outcome A :=
  fst (fst res).

Definition object_of {A} (res : Outcome A * t * list Event) : t :=
  snd (fst res).

Definition trace_of {A} (res : Outcome A * t * list Event) : list Event :=
  snd res.

(** [getRenderer ()] *)
Definition getRenderer (self : t) : R := _renderer self.

(** Operations applied to a renderer one after the other until one
    rejects. *)
Fixpoint apply_in_turn (ops : list (Operation.t R)) (r : R)
    : Outcome unit * R :=
  match ops with
  | [] => (Fulfilled tt, r)
  | op :: rest =>
      match Operation.render op r with
      | (Fulfilled _, r') => apply_in_turn rest r'
      | (Rejected e, r') => (Rejected e, r')
      end
  end.

(** The operations of a stack, with their indices, in the order in which
    the rendering phase takes them. *)
Definition render_order (ops : list (Operation.t R))
    : list (nat * Operation.t R) :=
  taken_from Operation.render_pending 0 ops.

(** The operations of a stack applied to a renderer in that order until
    one rejects (what the rendering phase is compared with). *)
Definition apply_stack (ops : list (Operation.t R)) (r : R)
    : Outcome unit * R :=
  apply_in_turn (map snd (render_order ops)) r.

End RenderImage.
End RenderImage.

(** ** ImglyKit *)

(** How a method call ends: it returns a value or throws. *)
Inductive Completion (A : Type) : Type :=
| Returned (a : A)
| Thrown (e : Error).
Arguments Returned {A} a.
Arguments Thrown {A} e.

(** [lib/image-exporter.js] is not among the sources: the exporter is
    taken with its two static methods.  [validateSettings] returns the
    settings (render type and image format) or throws; [export] returns a
    promise for the exported image. *)
Module ImageExporter.
Record t (S X : Type) := mk {
  validateSettings : option string -> option string -> Outcome (string * string);
  export : S -> string -> string -> Outcome X
}.
Arguments mk {S X} _ _.
Arguments validateSettings {S X} _ _ _.
Arguments export {S X} _ _ _ _.
End ImageExporter.

Module ImglyKit.
Section ImglyKit.
Context {P : Platform} {R S X : Type} {RO : Renderer.Ops R S}.

(** The fields of an [ImglyKit] object that [render] reads:
    [_options.image] ([None] when [typeof] gives ["undefined"]),
    [_options.renderer] and [operationsStack]. *)
Record t := mk {
  _options_image : option Canvas2D.Bitmap;
  _options_renderer : option string;
  operationsStack : list (Operation.t R)
}.

(** [render (renderType, imageFormat, dimensions)]: what the call returns
    (a promise, by its outcome) or throws, and the calls made. *)
Definition render (env : Environment) (exporter : ImageExporter.t S X)
    (self : t) (renderType imageFormat dimensions : option string)
    : Completion (Outcome X) * list Event :=
  (* if (typeof this._options.image === "undefined") throw new Error(...) *)
  match _options_image self with
  | None => (Thrown "`options.image` is undefined."%string, [])
  | Some image =>
      (* var settings = ImageExporter.validateSettings(renderType, imageFormat); *)
      match ImageExporter.validateSettings exporter renderType imageFormat with
      | Rejected e => (Thrown e, [EvExporterValidateSettings])
      | Fulfilled (renderType', imageFormat') =>
          (* var renderImage = new RenderImage(this._options.image,
               this.operationsStack, dimensions, this._options.renderer); *)
          match RenderImage.new env image (operationsStack self) dimensions
                  (_options_renderer self) with
          | (Rejected e, t1) => (Thrown e, EvExporterValidateSettings :: t1)
          | (Fulfilled renderImage, t1) =>
              (* return renderImage.render().then(function () { ... }) *)
              match RenderImage.render renderImage with
              | (Rejected e, _, t2) =>
                  (Returned (Rejected e), EvExporterValidateSettings :: t1 ++ t2)
              | (Fulfilled _, renderImage', t2) =>
                  (* var canvas = renderImage.getRenderer().getCanvas();
                     return ImageExporter.export(canvas, renderType, imageFormat); *)
                  let canvas :=
                    Renderer.getCanvas (RenderImage.getRenderer renderImage') in
                  (Returned (ImageExporter.export exporter canvas
                               renderType' imageFormat'),
                   EvExporterValidateSettings :: t1 ++ t2
                     ++ [EvGetCanvas; EvExport])
              end
          end
      end
  end.

End ImglyKit.
End ImglyKit.

(** ** Shapes of traces *)

(** The two events of one [render] call of operation [i]. *)
Definition render_call (ok : bool) (i : nat) : list Event :=
  [EvRenderInvoked i; EvRenderSettled i ok].

(** The events of the validation of the operations [0 .. n-1]. *)
Definition validations (n : nat) : list Event :=
  map EvValidateSettings (seq 0 n).

(** The events of the successful rendering of the operations of a stack,
    in the order in which the rendering phase takes them. *)
Definition renderings {R} (ops : list (Operation.t R)) : list Event :=
  flat_map (render_call true) (map fst (RenderImage.render_order ops)).

(** [one_at_a_time t]: in [t] each invocation of a [render] is followed at
    once by the settlement of the same operation. *)
Inductive one_at_a_time : list Event -> Prop :=
| one_at_a_time_nil : one_at_a_time []
| one_at_a_time_other e t :
    is_operation_render e = false ->
    one_at_a_time t -> one_at_a_time (e :: t)
| one_at_a_time_call i ok t :
    one_at_a_time t ->
    one_at_a_time (EvRenderInvoked i :: EvRenderSettled i ok :: t).

(** ** A concrete platform, image and stack, for the examples *)

Module Example.

(** A bilinear filter on numbers, for one pixel of the destination: the
    four source pixels around the position that the centre of the pixel
    comes from, weighted by their distance, positions outside the source
    rectangle taken from its edge, the result rounded to the nearest
    number. *)
Definition clamp (lo hi v : Z) : Z := Z.max lo (Z.min hi v).

Definition bilinear (source : Z -> Z -> Z) (sw sh dw dh u v : Z) : Z :=
  let cx := (2 * u + 1) * sw - dw in
  let cy := (2 * v + 1) * sh - dh in
  let x0 := cx / (2 * dw) in
  let y0 := cy / (2 * dh) in
  let fx := cx mod (2 * dw) in
  let fy := cy mod (2 * dh) in
  let at_ i j := source (clamp 0 (sw - 1) i) (clamp 0 (sh - 1) j) in
  let total :=
    at_ x0 y0 * (2 * dw - fx) * (2 * dh - fy)
    + at_ (x0 + 1) y0 * fx * (2 * dh - fy)
    + at_ x0 (y0 + 1) * (2 * dw - fx) * fy
    + at_ (x0 + 1) (y0 + 1) * fx * fy in
  (2 * total + 4 * dw * dh) / (8 * dw * dh).

(** Opaque pixels as numbers: drawing replaces what was there; scaling
    smooths with the bilinear filter. *)
Definition platform : Platform := {|
  Pixel := Z;
  transparent := 0;
  over := fun s _ => s;
  scaled := bilinear;
  default_width := 300;
  default_height := 150
|}.

#[local] Existing Instance platform.

(** A 2 x 2 image. *)
Definition image : Canvas2D.Bitmap :=
  Canvas2D.mkBitmap 2 2 (fun px py => 1 + px + 2 * py).

(** A canvas renderer constructed for the image, the image drawn. *)
Definition renderer : CanvasRenderer.State :=
  CanvasRenderer.drawImage image (CanvasRenderer.new (mkVector2 2 2)).

(** An element with a 2D context, one without [getContext]. *)
Definition with_2d : CanvasRenderer.Element :=
  CanvasRenderer.mkElement (Some (fun kind => String.eqb kind "2d")).

Definition without_getContext : CanvasRenderer.Element :=
  CanvasRenderer.mkElement None.

(** Operations whose promises have settled when the methods return: one
    that doubles the size, one that makes the picture one pixel wider, one
    that rejects after it has resized, one with invalid settings. *)
Definition double : Operation.t Renderer.Object :=
  Operation.mk (Fulfilled tt)
    (fun r =>
       Renderer.resizeTo
         (mkVector2 (2 * x (Renderer.getSize r)) (2 * y (Renderer.getSize r)))
         r)
    false false.

Definition widen : Operation.t Renderer.Object :=
  Operation.mk (Fulfilled tt)
    (fun r =>
       Renderer.resizeTo
         (mkVector2 (x (Renderer.getSize r) + 1) (y (Renderer.getSize r)))
         r)
    false false.

Definition failing : Operation.t Renderer.Object :=
  Operation.mk (Fulfilled tt)
    (fun r =>
       (Rejected "render failed"%string,
        snd (Renderer.resizeTo (mkVector2 1 1) r)))
    false false.

Definition invalid : Operation.t Renderer.Object :=
  Operation.mk (Rejected "invalid settings"%string)
    (fun r => (Fulfilled tt, r))
    false false.

(** The same operation working asynchronously: the promises it returns are
    pending when the methods return. *)
Definition later (op : Operation.t Renderer.Object)
    : Operation.t Renderer.Object :=
  Operation.mk (Operation.validateSettings op) (Operation.render op)
    true true.

(** A resolver that asks for a fixed size, one that keeps the size. *)
Definition fixed (d : Vector2) : ImageDimensions.t :=
  ImageDimensions.mk (fun _ => Fulfilled d).

Definition unchanged : ImageDimensions.t :=
  ImageDimensions.mk (fun size => Fulfilled size).

Definition environment (webgl : bool) (elem : CanvasRenderer.Element)
    : Environment :=
  mkEnvironment webgl elem
    (fun dimensions =>
       match dimensions with
       | None => Fulfilled unchanged
       | Some _ => Fulfilled (fixed (mkVector2 8 8))
       end).

Definition renderImage (stack : list (Operation.t Renderer.Object))
    (dims : ImageDimensions.t) : RenderImage.t :=
  RenderImage.mk None false (Renderer.Canvas renderer) image stack dims
    (mkVector2 2 2).

Definition exporter : ImageExporter.t (option Canvas2D.Canvas) string :=
  ImageExporter.mk
    (fun renderType imageFormat =>
       Fulfilled (default "data-url"%string renderType,
                  default "png"%string imageFormat))
    (fun _ renderType _ => Fulfilled renderType).

End Example.

(** ** The sequence of [render] without the promises

    What the chain of [RenderImage.render] amounts to on the renderer once
    the operations are validated: the resize decision, and the run of the
    operations (in the order in which the rendering phase takes them),
    [renderFinal] and the resize decision as a function of the stack, the
    dimensions and the renderer.  These are what the chain is compared
    with.  [first_invalid] is the error of the first operation of a list
    whose settings are invalid. *)

Section Direct.
Context {P : Platform} {R S : Type} {RO : Renderer.Ops R S}.

Fixpoint first_invalid (ops : list (Operation.t R)) : option Error :=
  match ops with
  | [] => None
  | op :: rest =>
      match Operation.validateSettings op with
      | Rejected e => Some e
      | Fulfilled _ => first_invalid rest
      end
  end.

Definition resize_direct (dims : ImageDimensions.t) (r : R)
    : Outcome unit * R :=
  match ImageDimensions.calculateFinalDimensions dims (Renderer.getSize r) with
  | Rejected e => (Rejected e, r)
  | Fulfilled d =>
      if Vector2.equals d (Renderer.getSize r) then (Fulfilled tt, r)
      else Renderer.resizeTo d r
  end.

Definition render_direct (ops : list (Operation.t R))
    (dims : ImageDimensions.t) (r : R) : Outcome unit * R :=
  match RenderImage.apply_stack ops r with
  | (Rejected e, r1) => (Rejected e, r1)
  | (Fulfilled _, r1) =>
      match Renderer.renderFinal r1 with
      | (Rejected e, r2) => (Rejected e, r2)
      | (Fulfilled _, r2) => resize_direct dims r2
      end
  end.

End Direct.

(** The calls that [ImglyKit.render] makes before a [RenderImage] has a
    renderer. *)
Definition before_renderer (e : Event) : bool :=
  match e with
  | EvExporterValidateSettings | EvNewImageDimensions
  | EvWebGLIsSupported | EvCanvasIsSupported => true
  | _ => false
  end.

Definition is_export (e : Event) : bool :=
  match e with EvExport => true | _ => false end.

Definition is_new_webgl (e : Event) : bool :=
  match e with EvNewWebGLRenderer _ => true | _ => false end.

(** The calls that [RenderImage.render] makes. *)
Definition pipeline_event (e : Event) : bool :=
  match e with
  | EvValidateSettings _ | EvRenderInvoked _ | EvRenderSettled _ _
  | EvRenderFinal | EvGetSize | EvCalculateFinalDimensions _
  | EvResizeTo _ => true
  | _ => false
  end.

Definition is_draw_image (e : Event) : bool :=
  match e with EvDrawImage => true | _ => false end.

(** ** The [ImglyKit] class: constructor, registries, asset paths *)

(** A property that may be [undefined] or [null]. *)
Inductive Nullable (A : Type) : Type :=
| JsUndefined
| JsNull
| JsValue (a : A).
Arguments JsUndefined {A}.
Arguments JsNull {A}.
Arguments JsValue {A} a.

(** A class that can be registered (a UI or an operation), by
    [prototype.identifier] and a tag that tells classes apart. *)
Record JsClass := mkClass {
  class_identifier : string;
  class_tag : nat
}.

(** The value of the option [ui]: absent, a boolean, or the identifier of a
    UI. *)
Inductive UiOption :=
| UiUndefined
| UiBool (b : bool)
| UiName (name : string).

(** The options object given to the constructor. *)
Module Options.
Section Options.
Context {P : Platform}.

Record t := mk {
  image : option Canvas2D.Bitmap;
  renderer : option string;
  assetsUrl : option string;
  container : Nullable nat;
  ui : UiOption
}.

End Options.
End Options.

(** What the class takes from modules that are not among the sources:
    [NightUI] ([ui/night/ui]); [require], the classes that the entries of
    the static [ImglyKit.Operations] hold; [Utils_values], the method
    [Utils.values]; [inherited], the names that an empty object answers
    through its prototype; [new_inherited], for such a name, the
    [TypeError] that [new] throws when what the object answers is not a
    constructor ([None] when it is one, as [Object] under
    ["constructor"]); [isBrowser], whether [window] is defined; and
    [path_resolve], the function [path.resolve] of Node. *)
Record ClassWorld := mkClassWorld {
  NightUI : JsClass;
  require : string -> JsClass;
  Utils_values : gmap string JsClass -> list JsClass;
  inherited : string -> bool;
  new_inherited : string -> option Error;
  isBrowser : bool;
  path_resolve : string -> string -> string
}.

Module ImglyKitClass.
Section ImglyKitClass.
Context {P : Platform} {R : Type}.

(** The object [new UI(this, this._options)] gives, by what it was made
    from: a registered class, or the constructor that an empty object
    answers for an inherited name. *)
Inductive UIObject :=
| NewUI (c : JsClass)
| NewInherited (name : string).

(** The fields of an [ImglyKit] object. *)
Record t := mk {
  _options : Options.t;
  operationsStack : list (Operation.t R);
  _registeredUIs : gmap string JsClass;
  _registeredOperations : gmap string JsClass;
  ui : option UIObject
}.

(** [_.defaults(options, { assetsUrl: "assets", container: null,
    ui: true })]: a property that is [undefined] takes the default. *)
Definition with_defaults (options : Options.t) : Options.t :=
  Options.mk (Options.image options) (Options.renderer options)
    (Some (default "assets"%string (Options.assetsUrl options)))
    (match Options.container options with
     | JsUndefined => JsNull
     | c => c
     end)
    (match Options.ui options with
     | UiUndefined => UiBool true
     | u => u
     end).

(** The static [ImglyKit.Operations], in the order its properties are
    set. *)
Definition Operations (w : ClassWorld) : list (string * JsClass) :=
  [ ("FiltersOperation", require w "./operations/filters-operation");
    ("RotationOperation", require w "./operations/rotation-operation");
    ("CropOperation", require w "./operations/crop-operation");
    ("SaturationOperation", require w "./operations/saturation-operation");
    ("ContrastOperation", require w "./operations/contrast-operation");
    ("BrightnessOperation", require w "./operations/brightness-operation");
    ("FlipOperation", require w "./operations/flip-operation");
    ("TiltShiftOperation", require w "./operations/tilt-shift-operation");
    ("RadialBlurOperation", require w "./operations/radial-blur-operation");
    ("TextOperation", require w "./operations/text-operation");
    ("StickersOperation", require w "./operations/stickers-operation");
    ("FramesOperation", require w "./operations/frames-operation") ]%string.

(** [registerOperation (operation)] *)
Definition registerOperation (operation : JsClass) (self : t) : t :=
  mk (_options self) (operationsStack self) (_registeredUIs self)
     (<[class_identifier operation := operation]> (_registeredOperations self))
     (ui self).

(** [registerUI (ui)] *)
Definition registerUI (ui_class : JsClass) (self : t) : t :=
  mk (_options self) (operationsStack self)
     (<[class_identifier ui_class := ui_class]> (_registeredUIs self))
     (_registeredOperations self) (ui self).

(** [_registerUIs ()] *)
Definition _registerUIs (w : ClassWorld) (self : t) : t :=
  registerUI (NightUI w) self.

(** [_registerOperations ()]: [for (let operationName in
    ImglyKit.Operations)]. *)
Definition _registerOperations (w : ClassWorld) (self : t) : t :=
  fold_left (fun s entry => registerOperation (snd entry) s)
            (Operations w) self.

(** [get registeredOperations ()] *)
Definition registeredOperations (self : t) : gmap string JsClass :=
  _registeredOperations self.

(** Whether a value of [ui] counts as true in a condition, and the string
    it gives as a property name or in a concatenation. *)
Definition truthy (u : UiOption) : bool :=
  match u with
  | UiUndefined => false
  | UiBool b => b
  | UiName name => negb (String.eqb name "")
  end.

Definition ui_string (u : UiOption) : string :=
  match u with
  | UiUndefined => "undefined"
  | UiBool true => "true"
  | UiBool false => "false"
  | UiName name => name
  end.

(** [this._registeredUIs[key]]: an own property, or what an empty object
    answers for an inherited name, or [undefined]. *)
Definition lookup_ui (w : ClassWorld) (self : t) (key : string)
    : option UIObject :=
  match _registeredUIs self !! key with
  | Some c => Some (NewUI c)
  | None => if inherited w key then Some (NewInherited key) else None
  end.

(** [new UI(...)]: the error thrown when [UI] is not a constructor. *)
Definition new_throws (w : ClassWorld) (object : UIObject) : option Error :=
  match object with
  | NewUI _ => None
  | NewInherited name => new_inherited w name
  end.

(** [_initUI ()] *)
Definition _initUI (w : ClassWorld) (self : t) : Completion t :=
  let found :=
    match Options.ui (_options self) with
    (* if (this._options.ui === true)
         UI = Utils.values(this._registeredUIs)[0]; *)
    | UiBool true => NewUI <$> head (Utils_values w (_registeredUIs self))
    (* else UI = this._registeredUIs[this._options.ui]; *)
    | u => lookup_ui w self (ui_string u)
    end in
  match found with
  (* if (typeof UI === "undefined") throw new Error(...) *)
  | None =>
      Thrown (String.append "ImglyKit: Unknown UI: "
                (ui_string (Options.ui (_options self))))
  (* this.ui = new UI(this, this._options); *)
  | Some object =>
      match new_throws w object with
      | Some e => Thrown e
      | None =>
          Returned (mk (_options self) (operationsStack self)
                       (_registeredUIs self) (_registeredOperations self)
                       (Some object))
      end
  end.

(** [constructor (options)]: [None] is a call without options. *)
Definition constructor (w : ClassWorld) (options : option Options.t)
    : Completion t :=
  match options with
  (* if (typeof options === "undefined") throw new Error("No options given."); *)
  | None => Thrown "No options given."%string
  | Some options =>
      let self := mk (with_defaults options) [] ∅ ∅ None in
      let self := _registerUIs w self in
      let self := _registerOperations w self in
      (* if (this._options.ui) this._initUI(); *)
      if truthy (Options.ui (_options self)) then _initUI w self
      else Returned self
  end.

(** [getAssetPath (asset)] *)
Definition getAssetPath (w : ClassWorld) (self : t) (asset : string)
    : string :=
  let assetsUrl :=
    default "undefined"%string (Options.assetsUrl (_options self)) in
  if isBrowser w then String.append assetsUrl (String.append "/" asset)
  else path_resolve w assetsUrl asset.

(** [reset ()] *)
Definition reset (self : t) : t := self.

(** The part of the object that [render] reads. *)
Definition render_view (self : t) : ImglyKit.t (R := R) :=
  ImglyKit.mk (Options.image (_options self))
    (Options.renderer (_options self)) (operationsStack self).

End ImglyKitClass.
End ImglyKitClass.

(** ** More concrete objects for the examples *)

Module Sample.
#[local] Existing Instance Example.platform.

(** A backend that keeps only its size and whose [renderFinal] rejects. *)
Definition lost_context : Renderer.Ops Vector2 unit := {|
  Renderer.newWebGLRenderer := fun d => d;
  Renderer.newCanvasRenderer := fun d => d;
  Renderer.drawImage := fun _ r => r;
  Renderer.renderFinal := fun r => (Rejected "context lost"%string, r);
  Renderer.getSize := fun r => r;
  Renderer.resizeTo := fun d _ => (Fulfilled tt, d);
  Renderer.getCanvas := fun _ => tt
|}.

Definition grow : Operation.t Vector2 :=
  Operation.mk (Fulfilled tt)
    (fun r => (Fulfilled tt, mkVector2 (x r + 1) (y r + 1)))
    false false.

Definition on_lost_context : RenderImage.t (R := Vector2) :=
  RenderImage.mk None true (mkVector2 2 2) Example.image [grow]
    Example.unchanged (mkVector2 2 2).

(** A resolver that fails. *)
Definition unresolvable : ImageDimensions.t :=
  ImageDimensions.mk (fun _ => Rejected "invalid dimensions"%string).

(** A kit that asks for the canvas renderer and one with an empty stack. *)
Definition canvas_kit : ImglyKit.t (R := Renderer.Object) :=
  ImglyKit.mk (Some Example.image) (Some "canvas"%string) [Example.double].

Definition plain_kit : ImglyKit.t (R := Renderer.Object) :=
  ImglyKit.mk (Some Example.image) None [].

(** The classes of a page: [NightUI], operation classes named after their
    modules, [Utils.values] as the values in the order of the keys, the
    names that every object inherits, of which only ["constructor"] holds
    a constructor. *)
Definition night : JsClass := mkClass "night" 0.

Definition object_prototype : list string :=
  ["constructor"; "toString"; "toLocaleString"; "valueOf";
   "hasOwnProperty"; "isPrototypeOf"; "propertyIsEnumerable";
   "__proto__"; "__defineGetter__"; "__defineSetter__";
   "__lookupGetter__"; "__lookupSetter__"]%string.

Definition world : ClassWorld :=
  mkClassWorld night
    (fun path => mkClass path 1)
    (fun registry => snd <$> map_to_list registry)
    (fun name => existsb (String.eqb name) object_prototype)
    (fun name => if String.eqb name "constructor" then None
                 else Some "UI is not a constructor"%string)
    true
    (fun base asset => String.append base (String.append "/" asset)).

Definition options (ui : UiOption) : Options.t :=
  Options.mk (Some Example.image) None None JsUndefined ui.

End Sample.

(* ================================================================== *)
(** * Part II: lemmas and theorems *)
(* ================================================================== *)

(** ** Vector2 *)

Lemma Vector2_equals_spec (a b : Vector2) :
  Vector2.equals a b = true <-> a = b.
Proof.
  unfold Vector2.equals. destruct a as [ax ay], b as [bx by']. simpl.
  rewrite andb_true_iff, !Z.eqb_eq. split.
  - intros [-> ->]. reflexivity.
  - intros [= -> ->]. split; reflexivity.
Qed.

Lemma Vector2_equals_false (a b : Vector2) :
  Vector2.equals a b = false <-> a <> b.
Proof.
  rewrite <- Vector2_equals_spec. destruct (Vector2.equals a b); split; congruence.
Qed.

(** ** The canvas store *)

Section CanvasFacts.
Import Canvas2D CanvasRenderer.
Context {P : Platform}.

Lemma in_rect_true (px py rx ry rw rh : Z) :
  in_rect px py rx ry rw rh = true <->
  rx <= px < rx + rw /\ ry <= py < ry + rh.
Proof.
  unfold in_rect. rewrite !andb_true_iff, !Z.leb_le, !Z.ltb_lt. lia.
Qed.

(** A draw between rectangles of the same size copies the pixels. *)
Lemma painted_same_size (src : Bitmap) (sx sy w h u v : Z) :
  painted src sx sy w h w h u v = b_pixel src (sx + u) (sy + v).
Proof. unfold painted. rewrite !Z.eqb_refl. reflexivity. Qed.

(** What the draw of a whole bitmap from its origin paints. *)
Lemma painted_whole (src : Bitmap) (dw dh u v : Z) :
  painted src 0 0 (b_width src) (b_height src) dw dh u v =
  if (b_width src =? dw) && (b_height src =? dh) then b_pixel src u v
  else scaled (b_pixel src) (b_width src) (b_height src) dw dh u v.
Proof. reflexivity. Qed.

Lemma read_write_eq (st : State) (a : nat) (f : Canvas -> Canvas) :
  is_Some (store st !! a) -> read (write a f st) a = f (read st a).
Proof.
  intros [c Hc]. unfold read, write. simpl.
  rewrite lookup_alter_eq, Hc. reflexivity.
Qed.

Lemma read_write_ne (st : State) (a b : nat) (f : Canvas -> Canvas) :
  a <> b -> read (write a f st) b = read st b.
Proof.
  intros Hab. unfold read, write. simpl.
  rewrite lookup_alter_ne by exact Hab. reflexivity.
Qed.

Lemma store_write_ne (st : State) (a b : nat) (f : Canvas -> Canvas) :
  a <> b -> store (write a f st) !! b = store st !! b.
Proof. intros Hab. unfold write. simpl. apply lookup_alter_ne. exact Hab. Qed.

Lemma write_allocated (st : State) (a b : nat) (f : Canvas -> Canvas) :
  is_Some (store st !! b) -> is_Some (store (write a f st) !! b).
Proof.
  intros Hb. unfold write. simpl.
  destruct (decide (a = b)) as [->|Hab].
  - rewrite lookup_alter_eq. destruct Hb as [c ->]. eexists. reflexivity.
  - rewrite lookup_alter_ne by exact Hab. exact Hb.
Qed.

Lemma createCanvas_fresh (st : State) :
  store st !! fst (createCanvas st) = None.
Proof.
  unfold createCanvas. simpl. apply not_elem_of_dom. apply is_fresh.
Qed.

Lemma createCanvas_old (st : State) (a : nat) :
  is_Some (store st !! a) ->
  a <> fst (createCanvas st) /\
  store (snd (createCanvas st)) !! a = store st !! a.
Proof.
  intros Ha.
  assert (Hne : a <> fst (createCanvas st)).
  { intros ->. rewrite createCanvas_fresh in Ha. destruct Ha as [? [=]]. }
  split; [exact Hne|].
  unfold createCanvas in *. simpl in *. apply lookup_insert_ne. congruence.
Qed.

Lemma createCanvas_new (st : State) :
  store (snd (createCanvas st)) !! fst (createCanvas st) = Some blank.
Proof. unfold createCanvas. simpl. apply lookup_insert_eq. Qed.

End CanvasFacts.

(** ** CanvasRenderer *)

Section CanvasRendererFacts.
Import Canvas2D CanvasRenderer.
Context {P : Platform}.

Lemma read_createCanvas_old (st : State) (a : nat) :
  is_Some (store st !! a) -> read (snd (createCanvas st)) a = read st a.
Proof.
  intros Ha. unfold read. destruct (createCanvas_old st a Ha) as [_ ->].
  reflexivity.
Qed.

Lemma read_createCanvas_new (st : State) :
  read (snd (createCanvas st)) (fst (createCanvas st)) = blank.
Proof. unfold read. rewrite createCanvas_new. reflexivity. Qed.

(** The constructor leaves a well-formed renderer of the construction
    size. *)
Lemma new_wf (dimensions : Vector2) :
  wf (new dimensions) /\ getSize (new dimensions) = dimensions.
Proof.
  unfold new, wf, getSize, read, createCanvas, setCanvas, write. simpl.
  rewrite !lookup_alter_eq, lookup_insert_eq. simpl.
  destruct dimensions. repeat split; eexists; reflexivity.
Qed.

Lemma drawImage_wf (image : Bitmap) (st : State) :
  wf st -> wf (drawImage image st).
Proof.
  intros [Hc Hx]. unfold drawImage.
  split; simpl; apply write_allocated; assumption.
Qed.

Lemma read_setCanvas (a b : nat) (st : State) :
  read (setCanvas a st) b = read st b.
Proof. reflexivity. Qed.

(** [resizeTo] step by step, with the new address named. *)
Lemma resizeTo_unfold (dimensions : Vector2) (st : State) :
  resizeTo dimensions st =
  let a := fst (createCanvas st) in
  let st3 := write a (set_height (y dimensions))
               (write a (set_width (x dimensions)) (snd (createCanvas st))) in
  let old := read st3 (_canvas st) in
  setCanvas a
    (write a (drawImage9 (Some (_canvas st)) (bitmap_of old)
                0 0 (width old) (height old)
                0 0 (width (read st3 a)) (height (read st3 a))) st3).
Proof. reflexivity. Qed.

Lemma cloneCanvas_unfold (st : State) :
  cloneCanvas st =
  let a := fst (createCanvas st) in
  let st1 := snd (createCanvas st) in
  let st2 := write a (set_width (width (read st1 (_canvas st)))) st1 in
  let st3 := write a (set_height (height (read st2 (_canvas st)))) st2 in
  (a, write a (drawImage3 (Some (_canvas st))
                 (bitmap_of (read st3 (_canvas st))) 0 0) st3).
Proof. reflexivity. Qed.

(** What a freshly created canvas holds after its size was set. *)
Lemma read_sized (st : State) (w h : Z) :
  let a := fst (createCanvas st) in
  read (write a (set_height h) (write a (set_width w) (snd (createCanvas st)))) a
  = mkCanvas w h (fun _ _ => transparent) [].
Proof.
  intros a. subst a.
  rewrite read_write_eq.
  2:{ apply write_allocated. rewrite createCanvas_new. eexists. reflexivity. }
  rewrite read_write_eq.
  2:{ rewrite createCanvas_new. eexists. reflexivity. }
  rewrite read_createCanvas_new. reflexivity.
Qed.

Lemma read_sized_old (st : State) (f g : Canvas -> Canvas) (o : nat) :
  is_Some (store st !! o) ->
  let a := fst (createCanvas st) in
  read (write a f (write a g (snd (createCanvas st)))) o = read st o.
Proof.
  intros Ho a. subst a.
  destruct (createCanvas_old st o Ho) as [Hne _].
  rewrite !read_write_ne by congruence.
  apply read_createCanvas_old. exact Ho.
Qed.

(** C7. [resizeTo (dimensions)], for dimensions that a canvas can have
    (from 0 to 2147483647) and an active canvas that has pixels, allocates
    a new canvas of the given width and height and makes one [drawImage]
    call on it whose source rectangle is the whole old canvas (from the
    origin, its full width and height) and whose destination rectangle is
    the whole new canvas: a stretch, not a crop.  Every pixel of the new
    canvas is what that draw paints on a cleared canvas: the old pixel at
    the same position when the size is unchanged, what the platform's
    scaling of the whole old picture to the new size gives otherwise.  The
    new canvas becomes the renderer's active canvas and context; the old
    canvas element is left as it was. *)
Theorem resizeTo_stretches_into_new_surface
    (L : PlatformLaws P) (dimensions : Vector2) (st : State) :
  wf st ->
  0 <= x dimensions <= 2147483647 ->
  0 <= y dimensions <= 2147483647 ->
  0 < width (read st (_canvas st)) ->
  0 < height (read st (_canvas st)) ->
  let st' := resizeTo dimensions st in
  let old := read st (_canvas st) in
  let new := read st' (_canvas st') in
  store st !! _canvas st' = None /\
  is_Some (store st' !! _canvas st') /\
  _context st' = _canvas st' /\
  width new = x dimensions /\
  height new = y dimensions /\
  calls new = [mkDrawCall (Some (_canvas st))
                 0 0 (width old) (height old)
                 0 0 (x dimensions) (y dimensions)] /\
  (forall px py,
      0 <= px < x dimensions -> 0 <= py < y dimensions ->
      pixel new px py =
      if (width old =? x dimensions) && (height old =? y dimensions)
      then pixel old px py
      else scaled (pixel old) (width old) (height old)
                  (x dimensions) (y dimensions) px py) /\
  (width old = x dimensions -> height old = y dimensions ->
   same_picture new old) /\
  read st' (_canvas st) = old.
Proof.
  intros [Hc _] _ _ _ _ st' old new.
  assert (Hst' : st' = resizeTo dimensions st) by reflexivity.
  rewrite resizeTo_unfold in Hst'. cbv zeta in Hst'.
  set (a := fst (createCanvas st)) in *.
  assert (Hfresh : store st !! a = None) by apply createCanvas_fresh.
  destruct (createCanvas_old st _ Hc) as [Hne _]. fold a in Hne.
  pose proof (read_sized st (x dimensions) (y dimensions)) as Hnew.
  pose proof (read_sized_old st (set_height (y dimensions))
                (set_width (x dimensions)) _ Hc) as Hold.
  cbv zeta in Hnew, Hold. fold a in Hnew, Hold.
  rewrite Hnew, Hold in Hst'. fold old in Hst'. cbn [width height] in Hst'.
  assert (Hcan : _canvas st' = a) by (rewrite Hst'; reflexivity).
  assert (Hall : is_Some (store (write a (set_height (y dimensions))
                    (write a (set_width (x dimensions))
                       (snd (createCanvas st)))) !! a)).
  { do 2 apply write_allocated. unfold a. rewrite createCanvas_new.
    eexists. reflexivity. }
  assert (Hread : new =
            drawImage9 (Some (_canvas st)) (bitmap_of old)
              0 0 (width old) (height old) 0 0 (x dimensions) (y dimensions)
              (mkCanvas (x dimensions) (y dimensions)
                        (fun _ _ => transparent) [])).
  { unfold new. rewrite Hcan, Hst'.
    rewrite read_setCanvas, read_write_eq by exact Hall.
    rewrite Hnew. reflexivity. }
  assert (Hpix : forall px py,
            0 <= px < x dimensions -> 0 <= py < y dimensions ->
            pixel new px py =
            if (width old =? x dimensions) && (height old =? y dimensions)
            then pixel old px py
            else scaled (pixel old) (width old) (height old)
                        (x dimensions) (y dimensions) px py).
  { intros px py Hx Hy. rewrite Hread. cbn [pixel drawImage9].
    assert (Hin : in_rect px py 0 0 (x dimensions) (y dimensions) = true)
      by (apply in_rect_true; lia).
    rewrite Hin, over_transparent, !Z.sub_0_r.
    apply (painted_whole (bitmap_of old)). }
  split; [rewrite Hcan; exact Hfresh|].
  split.
  { rewrite Hcan, Hst'.
    change (is_Some (store (write a
      (drawImage9 (Some (_canvas st)) (bitmap_of old) 0 0
         (width old) (height old) 0 0 (x dimensions) (y dimensions))
      (write a (set_height (y dimensions))
         (write a (set_width (x dimensions)) (snd (createCanvas st))))) !! a)).
    apply write_allocated. exact Hall. }
  split; [rewrite Hst'; reflexivity|].
  split; [rewrite Hread; reflexivity|].
  split; [rewrite Hread; reflexivity|].
  split; [rewrite Hread; reflexivity|].
  split; [exact Hpix|].
  split.
  { intros Hw Hh.
    split; [rewrite Hread; symmetry; exact Hw|].
    split; [rewrite Hread; symmetry; exact Hh|].
    intros px py Hx Hy.
    assert (Hwn : width new = x dimensions) by (rewrite Hread; reflexivity).
    assert (Hhn : height new = y dimensions) by (rewrite Hread; reflexivity).
    rewrite (Hpix px py) by lia.
    rewrite Hw, Hh, !Z.eqb_refl. reflexivity. }
  rewrite Hst', read_setCanvas, read_write_ne by congruence. exact Hold.
Qed.

Lemma cloneCanvas_eq (st : State) :
  is_Some (store st !! _canvas st) ->
  let a := fst (createCanvas st) in
  let old := read st (_canvas st) in
  cloneCanvas st =
  (a, write a (drawImage3 (Some (_canvas st)) (bitmap_of old) 0 0)
        (write a (set_height (height old))
           (write a (set_width (width old)) (snd (createCanvas st))))).
Proof.
  intros Hc a old. rewrite cloneCanvas_unfold. cbv zeta. fold a.
  destruct (createCanvas_old st _ Hc) as [Hne _]. fold a in Hne.
  assert (H1 : read (snd (createCanvas st)) (_canvas st) = old)
    by (apply read_createCanvas_old; exact Hc).
  rewrite !(read_write_ne _ a (_canvas st)) by congruence.
  rewrite !H1. reflexivity.
Qed.


End CanvasRendererFacts.
(** ** Traces in which the operations are rendered one at a time *)

Section TraceFacts.

Lemma one_at_a_time_others (t : list Event) :
  Forall other_event t -> one_at_a_time t.
Proof.
  induction 1 as [|e t He _ IH]; [constructor|].
  apply one_at_a_time_other; assumption.
Qed.

Lemma one_at_a_time_app (t u : list Event) :
  one_at_a_time t -> one_at_a_time u -> one_at_a_time (t ++ u).
Proof.
  intros Ht Hu. induction Ht as [|e t He _ IH|i ok t _ IH]; simpl.
  - exact Hu.
  - apply one_at_a_time_other; [exact He|exact IH].
  - apply one_at_a_time_call. exact IH.
Qed.

(** At most one [render] call is in flight after any prefix of such a
    trace. *)
Lemma one_at_a_time_in_flight (t : list Event) :
  one_at_a_time t ->
  forall p s, t = p ++ s -> (length (in_flight p) <= 1)%nat.
Proof.
  unfold in_flight.
  induction 1 as [|e t He _ IH|i ok t _ IH]; intros p s Hp.
  - destruct p; [simpl; lia|discriminate].
  - destruct p as [|e' p]; [simpl; lia|].
    injection Hp as <- Hp.
    destruct e; simpl in He; try discriminate; simpl; eapply IH; exact Hp.
  - destruct p as [|e1 p]; [simpl; lia|].
    injection Hp as <- Hp.
    destruct p as [|e2 p]; [simpl; lia|].
    injection Hp as <- Hp. simpl.
    rewrite Nat.eqb_refl. simpl. eapply IH. exact Hp.
Qed.

(** When an operation is invoked in such a trace, every operation that was
    invoked before it has settled. *)
Lemma one_at_a_time_settled_before (t : list Event) :
  one_at_a_time t ->
  forall p j s, t = p ++ EvRenderInvoked j :: s ->
    forall i, In i (invoked p) -> exists ok, In (EvRenderSettled i ok) p.
Proof.
  induction 1 as [|e t He _ IH|k ok t _ IH]; intros p j s Hp i Hi.
  - destruct p; discriminate.
  - destruct p as [|e' p]; [contradiction|].
    injection Hp as <- Hp.
    assert (Hi' : In i (invoked p)).
    { destruct e; simpl in He; try discriminate; exact Hi. }
    destruct (IH _ _ _ Hp i Hi') as [b Hb]. exists b. right. exact Hb.
  - destruct p as [|e1 p]; [contradiction|].
    injection Hp as <- Hp. destruct p as [|e2 p]; [discriminate|].
    injection Hp as <- Hp. simpl in Hi. destruct Hi as [<-|Hi].
    + exists ok. right. left. reflexivity.
    + destruct (IH _ _ _ Hp i Hi) as [b Hb]. exists b. right. right. exact Hb.
Qed.

Lemma validations_others (i n : nat) :
  Forall other_event (map EvValidateSettings (seq i n)).
Proof.
  revert i. induction n as [|n IH]; intros i; simpl; constructor.
  - reflexivity.
  - apply IH.
Qed.

Lemma render_calls_one_at_a_time (order : list nat) :
  one_at_a_time (flat_map (render_call true) order).
Proof.
  induction order as [|i order IH]; simpl.
  - constructor.
  - apply one_at_a_time_call. exact IH.
Qed.

Lemma invoked_app (t u : list Event) :
  invoked (t ++ u) = invoked t ++ invoked u.
Proof.
  induction t as [|e t IH]; [reflexivity|].
  destruct e; simpl; rewrite IH; reflexivity.
Qed.

Lemma invoked_others (t : list Event) :
  Forall other_event t -> invoked t = [].
Proof.
  induction 1 as [|e t He _ IH]; [reflexivity|].
  destruct e; simpl in *; try discriminate; exact IH.
Qed.

Lemma invoked_complete (t : list Event) (j : nat) :
  In (EvRenderInvoked j) t -> In j (invoked t).
Proof.
  induction t as [|e t IH]; intros Hin; [contradiction|].
  destruct Hin as [->|Hin].
  - left. reflexivity.
  - destruct e; simpl; auto.
Qed.

Lemma invoked_render_calls (order : list nat) :
  invoked (flat_map (render_call true) order) = order.
Proof.
  induction order as [|i order IH]; simpl; [reflexivity|].
  rewrite IH. reflexivity.
Qed.

Lemma resizes_app (t u : list Event) :
  resizes (t ++ u) = resizes t ++ resizes u.
Proof.
  induction t as [|e t IH]; [reflexivity|].
  destruct e; simpl; rewrite IH; reflexivity.
Qed.

Lemma resizes_validations (n : nat) : resizes (validations n) = [].
Proof.
  unfold validations. generalize 0%nat as i.
  induction n as [|n IH]; intros i; simpl; [reflexivity|apply IH].
Qed.

Lemma resizes_render_calls (order : list nat) :
  resizes (flat_map (render_call true) order) = [].
Proof. induction order as [|i order IH]; simpl; [reflexivity|exact IH]. Qed.




End TraceFacts.

(** ** The order in which the rendering phase takes the operations *)

Section OrderFacts.
Import RenderImage.
Context {A : Type}.

Lemma indexed_fst (i : nat) (array : list A) :
  map fst (indexed i array) = seq i (length array).
Proof.
  revert i. induction array as [|item rest IH]; intros i; simpl;
    [reflexivity|]. rewrite IH. reflexivity.
Qed.

Lemma indexed_snd (i : nat) (array : list A) :
  map snd (indexed i array) = array.
Proof.
  revert i. induction array as [|item rest IH]; intros i; simpl;
    [reflexivity|]. rewrite IH. reflexivity.
Qed.

(** Every element is taken exactly once. *)
Lemma taken_from_permutation (pending : A -> bool) (i : nat)
    (array : list A) :
  Permutation (taken_from pending i array) (indexed i array).
Proof.
  revert i. induction array as [|item rest IH]; intros i; simpl.
  - constructor.
  - constructor. destruct (pending item).
    + symmetry. apply Permutation_rev.
    + apply IH.
Qed.

(** While no promise is pending the elements are taken in index order. *)
Lemma taken_from_none_pending (pending : A -> bool) (i : nat)
    (array : list A) :
  Forall (fun item => pending item = false) array ->
  taken_from pending i array = indexed i array.
Proof.
  intros Hall. revert i. induction Hall as [|item rest Hitem _ IH];
    intros i; simpl; [reflexivity|].
  rewrite Hitem, IH. reflexivity.
Qed.

(** After the first pending promise the other elements are taken from the
    last backwards. *)
Lemma taken_from_first_pending (pending : A -> bool) (i : nat)
    (before after : list A) (item : A) :
  Forall (fun item => pending item = false) before ->
  pending item = true ->
  taken_from pending i (before ++ item :: after) =
  indexed i (before ++ [item])
    ++ rev (indexed (i + length before + 1) after).
Proof.
  intros Hall Hitem. revert i. induction Hall as [|b rest Hb _ IH];
    intros i; simpl.
  - rewrite Hitem. replace (i + 0 + 1)%nat with (Datatypes.S i) by lia.
    reflexivity.
  - rewrite Hb, IH.
    replace (Datatypes.S i + length rest + 1)%nat
      with (i + Datatypes.S (length rest) + 1)%nat by lia.
    reflexivity.
Qed.

End OrderFacts.
(** ** RenderImage: the phases of [render] *)

Section RenderImageFacts.
Import RenderImage.
Import Operation (valid, invalid).
Context {P : Platform} {R S : Type} {RO : Renderer.Ops R S}.

Abbreviation Op := (Operation.t R).
Abbreviation RI := (@RenderImage.t P R).

Lemma set_renderer_same (self : RI) : set_renderer (_renderer self) self = self.
Proof. destruct self. reflexivity. Qed.

Lemma set_renderer_twice (r r' : R) (self : RI) :
  set_renderer r (set_renderer r' self) = set_renderer r self.
Proof. reflexivity. Qed.

(** *** Validation *)

Lemma validateSettings_cases (op : Op) :
  valid op \/ exists e, Operation.validateSettings op = Rejected e.
Proof.
  unfold valid. destruct (Operation.validateSettings op) as [[]|e].
  - left. reflexivity.
  - right. exists e. reflexivity.
Qed.

Lemma valid_or_invalid (ops : list Op) :
  Forall valid ops \/ Exists invalid ops.
Proof.
  induction ops as [|op ops [IH|IH]].
  - left. constructor.
  - destruct (validateSettings_cases op) as [Hop|Hop].
    + left. constructor; assumption.
    + right. apply Exists_cons_hd. exact Hop.
  - right. apply Exists_cons_tl. exact IH.
Qed.

Lemma valid_not_invalid (ops : list Op) :
  Forall valid ops -> Exists invalid ops -> False.
Proof.
  induction 1 as [|op ops Hop _ IH]; intros Hex; inversion Hex as [? ? [e He]|];
    subst; [|auto].
  unfold valid in Hop. congruence.
Qed.

Lemma first_invalid_none (ops : list Op) :
  Forall valid ops -> first_invalid ops = None.
Proof.
  induction 1 as [|op ops Hop _ IH]; [reflexivity|].
  simpl. unfold valid in Hop. rewrite Hop. exact IH.
Qed.

Lemma first_invalid_some (ops : list Op) :
  Exists invalid ops -> exists e, first_invalid ops = Some e.
Proof.
  induction 1 as [op ops [e He]|op ops _ [e IH]]; simpl.
  - exists e. rewrite He. reflexivity.
  - destruct (Operation.validateSettings op) as [[]|e'];
      [exists e; exact IH|exists e'; reflexivity].
Qed.

(** One call of the mapper of the validation. *)
Lemma call_all_validate_cons (op : Op) (ops : list Op) (i : nat) (self : RI) :
  call_all i (op :: ops) validate_mapper self =
  if Operation.validation_pending op then
    match call_all (Datatypes.S i) ops validate_mapper self with
    | (Fulfilled later, s, t) =>
        (Fulfilled (settle (Operation.validateSettings op) :: later), s,
         EvValidateSettings i :: t)
    | (Rejected e, s, t) => (Rejected e, s, EvValidateSettings i :: t)
    end
  else
    match Operation.validateSettings op with
    | Fulfilled _ =>
        match call_all (Datatypes.S i) ops validate_mapper self with
        | (o, s, t) => (o, s, EvValidateSettings i :: t)
        end
    | Rejected e => (Rejected e, self, [EvValidateSettings i])
    end.
Proof.
  simpl. unfold bind at 1. unfold validate_mapper at 1.
  unfold bind at 1. unfold emit, ret at 1. cbn [app].
  destruct (Operation.validation_pending op).
  - unfold bind at 1.
    destruct (call_all (Datatypes.S i) ops validate_mapper self)
      as [[[later|e] s] t]; [|reflexivity].
    unfold ret. cbn [app]. rewrite app_nil_r. reflexivity.
  - unfold bind at 1, settle at 1.
    destruct (Operation.validateSettings op) as [[]|e]; [|reflexivity].
    destruct (call_all (Datatypes.S i) ops validate_mapper self)
      as [[o s] t]. reflexivity.
Qed.

(** The calls of the validation: either a promise that had settled was
    rejected, and the calls end there, or every [validateSettings] was
    called and the pending promises are left to settle. *)
Lemma call_all_validate (ops : list Op) (i : nat) (self : RI) :
  (exists e k, Exists invalid ops /\
     call_all i ops validate_mapper self =
     (Rejected e, self, map EvValidateSettings (seq i k))) \/
  (call_all i ops validate_mapper self =
     (Fulfilled (map (fun op => settle (Operation.validateSettings op))
                   (List.filter Operation.validation_pending ops)),
      self, map EvValidateSettings (seq i (length ops))) /\
   Forall (fun op => Operation.validation_pending op = false -> valid op) ops).
Proof.
  revert i. induction ops as [|op ops IH]; intros i.
  - right. split; [reflexivity|constructor].
  - rewrite call_all_validate_cons. simpl.
    destruct (Operation.validation_pending op) eqn:Hpending.
    + destruct (IH (Datatypes.S i)) as [[e [k [Hex ->]]]|[-> Hall]].
      * left. exists e, (Datatypes.S k).
        split; [apply Exists_cons_tl; exact Hex|reflexivity].
      * right. split; [reflexivity|]. constructor; [intros Hf; congruence|exact Hall].
    + destruct (validateSettings_cases op) as [Hop|[e He]].
      * unfold valid in Hop. rewrite Hop.
        destruct (IH (Datatypes.S i)) as [[e [k [Hex ->]]]|[-> Hall]].
        -- left. exists e, (Datatypes.S k).
           split; [apply Exists_cons_tl; exact Hex|reflexivity].
        -- right. split; [reflexivity|].
           constructor; [intros _; exact Hop|exact Hall].
      * rewrite He. left. exists e, 1%nat.
        split; [apply Exists_cons_hd; exists e; exact He|reflexivity].
Qed.

(** The settlement of the pending validations. *)
Lemma settle_all_validate (ops : list Op) (self : RI) :
  settle_all (map (fun op => settle (Operation.validateSettings op)) ops) self =
  match first_invalid ops with
  | None => (Fulfilled tt, self, [])
  | Some e => (Rejected e, self, [])
  end.
Proof.
  induction ops as [|op ops IH]; [reflexivity|].
  simpl. unfold bind at 1, settle at 1.
  destruct (Operation.validateSettings op) as [[]|e]; [|reflexivity].
  rewrite IH. destruct (first_invalid ops); reflexivity.
Qed.

Lemma validate_step_unfold (self : RI) :
  validate_step self =
  match call_all 0 (_stack self) validate_mapper self with
  | (Fulfilled pending, s, t) =>
      match settle_all pending s with
      | (o, s', t') => (o, s', t ++ t')
      end
  | (Rejected e, s, t) => (Rejected e, s, t)
  end.
Proof.
  unfold validate_step, bluebird_map. unfold bind at 1.
  destruct (call_all 0 (_stack self) validate_mapper self)
    as [[[pending|e] s] t]; [|reflexivity].
  destruct (settle_all pending s) as [[o s'] t']. reflexivity.
Qed.

(** When every operation is valid, every [validateSettings] is called and
    nothing else happens. *)
Lemma validate_all_valid (self : RI) :
  Forall valid (_stack self) ->
  validate_step self =
  (Fulfilled tt, self, validations (length (_stack self))).
Proof.
  intros Hall. rewrite validate_step_unfold.
  destruct (call_all_validate (_stack self) 0 self)
    as [[e [k [Hex _]]]|[-> _]].
  - destruct (valid_not_invalid _ Hall Hex).
  - rewrite settle_all_validate, first_invalid_none.
    + rewrite app_nil_r. reflexivity.
    + clear -Hall. induction Hall as [|op ops Hop _ IH]; simpl;
        [constructor|].
      destruct (Operation.validation_pending op);
        [constructor; assumption|exact IH].
Qed.

(** When an operation is invalid, the validation is rejected, [this] is as
    before and only [validateSettings] calls were made. *)
Lemma validate_some_invalid (self : RI) :
  Exists invalid (_stack self) ->
  exists e k,
    validate_step self = (Rejected e, self, validations k).
Proof.
  intros Hex. rewrite validate_step_unfold.
  destruct (call_all_validate (_stack self) 0 self)
    as [[e [k [_ ->]]]|[-> Hsettled]].
  - exists e, k. reflexivity.
  - assert (Hpending : Exists invalid
              (List.filter Operation.validation_pending (_stack self))).
    { clear -Hex Hsettled. induction Hsettled as [|op ops Hop _ IH].
      - inversion Hex.
      - simpl. destruct (Operation.validation_pending op) eqn:Hp.
        + inversion Hex; subst;
            [apply Exists_cons_hd; assumption
            |apply Exists_cons_tl; apply IH; assumption].
        + inversion Hex as [? ? [e He]|]; subst; [|apply IH; assumption].
          specialize (Hop eq_refl). unfold valid in Hop. congruence. }
    destruct (first_invalid_some _ Hpending) as [e He].
    rewrite settle_all_validate, He.
    exists e, (length (_stack self)). rewrite app_nil_r. reflexivity.
Qed.

Lemma validate_fulfilled (self s1 : RI) (u : unit) (t1 : list Event) :
  validate_step self = (Fulfilled u, s1, t1) ->
  s1 = self /\ t1 = validations (length (_stack self)) /\
  Forall valid (_stack self).
Proof.
  intros Hrun. destruct (valid_or_invalid (_stack self)) as [Hval|Hinv].
  - rewrite (validate_all_valid self Hval) in Hrun.
    injection Hrun as _ <- <-. repeat split. exact Hval.
  - destruct (validate_some_invalid self Hinv) as [e [k Hk]].
    rewrite Hk in Hrun. discriminate.
Qed.

(** *** Rendering *)

(** One [render] call, from its invocation to its settlement, whether or
    not its promise was pending when the call returned. *)
Lemma take_in_turn_render_cons (i : nat) (op : Op) (queue : list (nat * Op))
    (self : RI) :
  take_in_turn ((i, op) :: queue) render_mapper self =
  match Operation.render op (_renderer self) with
  | (Fulfilled _, r1) =>
      match take_in_turn queue render_mapper (set_renderer r1 self) with
      | (o, self2, t2) => (o, self2, render_call true i ++ t2)
      end
  | (Rejected e, r1) =>
      (Rejected e, set_renderer r1 self, render_call false i)
  end.
Proof.
  simpl. unfold bind at 1. unfold render_mapper at 1.
  unfold bind at 1. unfold emit. cbn [app].
  destruct (Operation.render_pending op).
  - unfold ret at 1. cbn [app]. unfold bind at 1. unfold await, settle_render.
    destruct (Operation.render op (_renderer self)) as [[[]|e] r1];
      [|reflexivity].
    destruct (take_in_turn queue render_mapper (set_renderer r1 self))
      as [[o self2] t2]. reflexivity.
  - unfold settle_render.
    destruct (Operation.render op (_renderer self)) as [[[]|e] r1];
      cbn [app]; unfold bind at 1; unfold await, settle; [|reflexivity].
    destruct (take_in_turn queue render_mapper (set_renderer r1 self))
      as [[o self2] t2]. reflexivity.
Qed.

(** The rendering phase takes the operations in the order [taken_from]
    says. *)
Lemma map_one_at_a_time_render (ops : list Op) (i : nat) (self : RI) :
  map_one_at_a_time i ops render_mapper self =
  take_in_turn (taken_from Operation.render_pending i ops) render_mapper self.
Proof.
  revert i self. induction ops as [|op ops IH]; intros i self;
    [reflexivity|].
  cbn [taken_from]. rewrite take_in_turn_render_cons.
  cbn [map_one_at_a_time]. unfold bind at 1. unfold render_mapper at 1.
  unfold bind at 1. unfold emit. cbn [app].
  destruct (Operation.render_pending op).
  - unfold ret at 1. cbn [app]. unfold bind at 1. unfold settle_render.
    destruct (Operation.render op (_renderer self)) as [[[]|e] r1];
      [|reflexivity].
    destruct (take_in_turn (rev (indexed (Datatypes.S i) ops)) render_mapper
                (set_renderer r1 self)) as [[o self2] t2]. reflexivity.
  - unfold settle_render.
    destruct (Operation.render op (_renderer self)) as [[[]|e] r1];
      cbn [app]; unfold bind at 1; unfold settle; [|reflexivity].
    rewrite IH.
    destruct (take_in_turn (taken_from Operation.render_pending
                              (Datatypes.S i) ops) render_mapper
                (set_renderer r1 self)) as [[o self2] t2]. reflexivity.
Qed.

(** The rendering of a queue whose operations all fulfil. *)
Lemma render_all_fulfilled (queue : list (nat * Op)) (self : RI) (r' : R) :
  apply_in_turn (map snd queue) (_renderer self) = (Fulfilled tt, r') ->
  take_in_turn queue render_mapper self =
  (Fulfilled tt, set_renderer r' self,
   flat_map (render_call true) (map fst queue)).
Proof.
  revert self. induction queue as [|[i op] queue IH]; intros self Happ.
  - simpl in Happ. injection Happ as <-. simpl. unfold ret.
    rewrite set_renderer_same. reflexivity.
  - simpl in Happ. rewrite take_in_turn_render_cons.
    destruct (Operation.render op (_renderer self)) as [[[]|e] r1];
      [|discriminate].
    rewrite (IH (set_renderer r1 self) Happ). reflexivity.
Qed.

(** The rendering of a queue in which the operation after [pre] is the
    first to reject. *)
Lemma render_first_rejected (pre post : list (nat * Op)) (i : nat) (op : Op)
    (self : RI) (r1 r2 : R) (e : Error) :
  apply_in_turn (map snd pre) (_renderer self) = (Fulfilled tt, r1) ->
  Operation.render op r1 = (Rejected e, r2) ->
  take_in_turn (pre ++ (i, op) :: post) render_mapper self =
  (Rejected e, set_renderer r2 self,
   flat_map (render_call true) (map fst pre) ++ render_call false i).
Proof.
  revert self. induction pre as [|[j p] pre IH]; intros self Hpre Hop.
  - simpl in Hpre. injection Hpre as <-.
    cbn [app]. rewrite take_in_turn_render_cons, Hop. reflexivity.
  - simpl in Hpre. cbn [app]. rewrite take_in_turn_render_cons.
    destruct (Operation.render p (_renderer self)) as [[[]|e'] r0];
      [|discriminate].
    rewrite (IH (set_renderer r0 self) Hpre Hop). reflexivity.
Qed.

(** Whatever the operations do, they are rendered one at a time in the
    order of the queue, the rendering phase leaves the outcome and the
    renderer of [apply_in_turn], and only the renderer of [this]
    changes. *)
Lemma take_in_turn_render_shape (queue : list (nat * Op)) (self : RI) :
  let res := take_in_turn queue render_mapper self in
  one_at_a_time (trace_of res) /\
  object_of res = set_renderer (_renderer (object_of res)) self /\
  apply_in_turn (map snd queue) (_renderer self) =
    (outcome_of res, _renderer (object_of res)) /\
  (exists k, (k <= length queue)%nat /\
     invoked (trace_of res) = firstn k (map fst queue)) /\
  (is_fulfilled (outcome_of res) = true ->
   trace_of res = flat_map (render_call true) (map fst queue)).
Proof.
  cbv zeta. revert self. induction queue as [|[i op] queue IH]; intros self.
  - simpl. unfold ret, trace_of, object_of, outcome_of. simpl.
    split; [constructor|]. split; [symmetry; apply set_renderer_same|].
    split; [reflexivity|]. split; [|reflexivity].
    exists 0%nat. split; [lia|reflexivity].
  - rewrite take_in_turn_render_cons. cbn [map snd fst apply_in_turn].
    destruct (Operation.render op (_renderer self)) as [[[]|e] r1].
    + destruct (IH (set_renderer r1 self))
        as [Hone [Hobj [Happ [[k [Hk Hinv]] Hful]]]].
      destruct (take_in_turn queue render_mapper (set_renderer r1 self))
        as [[o self2] t2].
      unfold object_of, trace_of, outcome_of in *. cbn [fst snd] in *.
      split; [apply one_at_a_time_call; exact Hone|].
      split; [rewrite Hobj at 1; reflexivity|].
      split; [exact Happ|].
      split.
      * exists (Datatypes.S k). split; [simpl; lia|].
        simpl. rewrite Hinv. reflexivity.
      * intros Hok. simpl. rewrite (Hful Hok). reflexivity.
    + unfold object_of, trace_of, outcome_of. cbn [fst snd].
      split; [apply one_at_a_time_call; constructor|].
      split; [reflexivity|]. split; [reflexivity|].
      split; [|discriminate].
      exists 1%nat. split; [simpl; lia|reflexivity].
Qed.

(** *** The chain *)

Lemma render_step_unfold (self : RI) :
  render_step self =
  match take_in_turn (render_order (_stack self)) render_mapper self with
  | (Fulfilled _, s, t) =>
      match Renderer.renderFinal (_renderer s) with
      | (o, r) => (o, set_renderer r s, t ++ [EvRenderFinal])
      end
  | (Rejected e, s, t) => (Rejected e, s, t)
  end.
Proof.
  unfold render_step, bluebird_map, render_order. unfold bind at 1.
  rewrite map_one_at_a_time_render.
  destruct (take_in_turn (taken_from Operation.render_pending 0 (_stack self))
              render_mapper self) as [[[u|e] s] t]; [|reflexivity].
  unfold bind, emit, on_renderer.
  destruct (Renderer.renderFinal (_renderer s)) as [o r]. reflexivity.
Qed.

Lemma render_unfold (self : RI) :
  render self =
  match validate_step self with
  | (Fulfilled _, s1, t1) =>
      match render_step s1 with
      | (Fulfilled _, s2, t2) =>
          match resize_step s2 with
          | (o, s3, t3) => (o, s3, (t1 ++ t2) ++ t3)
          end
      | (Rejected e, s2, t2) => (Rejected e, s2, t1 ++ t2)
      end
  | (Rejected e, s1, t1) => (Rejected e, s1, t1)
  end.
Proof.
  unfold render, before_resize. unfold bind at 1. unfold bind at 1.
  destruct (validate_step self) as [[[u|e] s1] t1]; [|reflexivity].
  destruct (render_step s1) as [[[u2|e] s2] t2]; [|reflexivity].
  destruct (resize_step s2) as [[o s3] t3]. reflexivity.
Qed.

(** The resize decision makes no [render] call and changes only the
    renderer. *)
Lemma resize_step_shape (self : RI) :
  Forall other_event (trace_of (resize_step self)) /\
  (exists r, object_of (resize_step self) = set_renderer r self).
Proof.
  unfold resize_step, trace_of, object_of.
  destruct (ImageDimensions.calculateFinalDimensions (_dimensions self)
              (Renderer.getSize (_renderer self))) as [d|e]; simpl.
  - destruct (Vector2.equals d (Renderer.getSize (_renderer self))).
    + split; [repeat constructor|].
      exists (_renderer self). symmetry. apply set_renderer_same.
    + destruct (Renderer.resizeTo d (_renderer self)) as [o r]. simpl.
      split; [repeat constructor|]. exists r. reflexivity.
  - split; [repeat constructor|].
    exists (_renderer self). symmetry. apply set_renderer_same.
Qed.

(** Every run of [render]: the [render] calls are made one at a time, the
    operations invoked are the first of the order in which the rendering
    phase takes them, and only the renderer of [this] changes. *)
Lemma render_shape (self : RI) :
  one_at_a_time (trace_of (render self)) /\
  (exists k, (k <= length (_stack self))%nat /\
             invoked (trace_of (render self)) =
             firstn k (map fst (render_order (_stack self)))) /\
  (exists r, object_of (render self) = set_renderer r self).
Proof.
  rewrite render_unfold.
  destruct (valid_or_invalid (_stack self)) as [Hval|Hinv].
  - rewrite (validate_all_valid self Hval).
    pose proof (validations_others 0 (length (_stack self))) as Hv.
    fold (validations (length (_stack self))) in Hv.
    rewrite render_step_unfold.
    destruct (take_in_turn_render_shape (render_order (_stack self)) self)
      as [Hone [Hr1 [_ [[k [Hk Hinv]] _]]]].
    assert (Hlen : length (render_order (_stack self)) = length (_stack self)).
    { unfold render_order.
      rewrite (Permutation_length (taken_from_permutation _ 0 (_stack self))).
      rewrite <- (length_map fst), indexed_fst. apply length_seq. }
    rewrite Hlen in Hk.
    destruct (take_in_turn (render_order (_stack self)) render_mapper self)
      as [[[u|e] s] t]; unfold object_of, trace_of in *; cbn [fst snd] in *.
    + destruct (Renderer.renderFinal (_renderer s)) as [[u'|e] r2].
      * destruct (resize_step_shape (set_renderer r2 s)) as [Hoth [r3 Hr3]].
        destruct (resize_step (set_renderer r2 s)) as [[o s3] t3].
        unfold object_of, trace_of in *; cbn [fst snd] in *.
        split.
        { apply one_at_a_time_app; [|apply one_at_a_time_others; exact Hoth].
          apply one_at_a_time_app; [apply one_at_a_time_others; exact Hv|].
          apply one_at_a_time_app; [exact Hone|].
          apply one_at_a_time_others. repeat constructor. }
        split.
        { exists k. split; [exact Hk|].
          rewrite !invoked_app, (invoked_others _ Hv), (invoked_others _ Hoth),
            Hinv. simpl. rewrite !app_nil_r. reflexivity. }
        exists r3. rewrite Hr3, Hr1. reflexivity.
      * cbn [fst snd]. split.
        { apply one_at_a_time_app; [apply one_at_a_time_others; exact Hv|].
          apply one_at_a_time_app; [exact Hone|].
          apply one_at_a_time_others. repeat constructor. }
        split.
        { exists k. split; [exact Hk|].
          rewrite !invoked_app, (invoked_others _ Hv), Hinv. simpl.
          rewrite app_nil_r. reflexivity. }
        exists r2. rewrite Hr1. reflexivity.
    + split.
      { apply one_at_a_time_app; [apply one_at_a_time_others; exact Hv|].
        exact Hone. }
      split.
      { exists k. split; [exact Hk|].
        rewrite invoked_app, (invoked_others _ Hv), Hinv. reflexivity. }
      exists (_renderer s). exact Hr1.
  - destruct (validate_some_invalid self Hinv) as [e [k Hk]].
    rewrite Hk. unfold object_of, trace_of. simpl.
    pose proof (validations_others 0 k) as Hv.
    split; [apply one_at_a_time_others; exact Hv|].
    split.
    + exists 0%nat. split; [lia|]. exact (invoked_others _ Hv).
    + exists (_renderer self). symmetry. apply set_renderer_same.
Qed.

(** After a successful validation the operations invoked by [render] are
    those that the rendering phase invokes. *)
Lemma render_invoked (self : RI) :
  Forall valid (_stack self) ->
  invoked (trace_of (render self)) =
  invoked (trace_of (take_in_turn (render_order (_stack self))
                       render_mapper self)).
Proof.
  intros Hval. rewrite render_unfold, (validate_all_valid self Hval).
  pose proof (validations_others 0 (length (_stack self))) as Hv.
  fold (validations (length (_stack self))) in Hv.
  rewrite render_step_unfold.
  destruct (take_in_turn (render_order (_stack self)) render_mapper self)
    as [[[u|e] s] t]; unfold trace_of; cbn [fst snd].
  - destruct (Renderer.renderFinal (_renderer s)) as [[u'|e] r2].
    + destruct (resize_step_shape (set_renderer r2 s)) as [Hoth _].
      destruct (resize_step (set_renderer r2 s)) as [[o s3] t3].
      unfold trace_of in Hoth. cbn [fst snd] in *.
      rewrite !invoked_app, (invoked_others _ Hv), (invoked_others _ Hoth).
      simpl. rewrite !app_nil_r. reflexivity.
    + cbn [fst snd]. rewrite !invoked_app, (invoked_others _ Hv). simpl.
      rewrite app_nil_r. reflexivity.
  - rewrite invoked_app, (invoked_others _ Hv). reflexivity.
Qed.

Lemma render_order_length (ops : list Op) :
  length (render_order ops) = length ops.
Proof.
  unfold render_order.
  rewrite (Permutation_length (taken_from_permutation _ 0 ops)).
  rewrite <- (length_map fst), indexed_fst. apply length_seq.
Qed.

Lemma render_order_indices (ops : list Op) :
  Permutation (map fst (render_order ops)) (seq 0 (length ops)).
Proof.
  unfold render_order. rewrite <- (indexed_fst 0 ops).
  apply Permutation_map. apply taken_from_permutation.
Qed.

(** When no [render] promise is pending at return, the operations are
    rendered in the order of the stack. *)
Lemma renderings_in_stack_order (ops : list Op) :
  Forall (fun op => Operation.render_pending op = false) ops ->
  renderings ops = flat_map (render_call true) (seq 0 (length ops)).
Proof.
  intros Hnone. unfold renderings, render_order.
  rewrite (taken_from_none_pending _ 0 _ Hnone), indexed_fst. reflexivity.
Qed.

(** C9. [render] leaves the stack as it was, whatever the outcome: of the
    fields of [this] only the renderer may have changed. *)
Theorem render_leaves_stack_unchanged (self : RI) :
  _stack (object_of (render self)) = _stack self /\
  exists r, object_of (render self) = set_renderer r self.
Proof.
  destruct (render_shape self) as [_ [_ [r Hr]]].
  split; [|exists r; exact Hr].
  rewrite Hr. reflexivity.
Qed.

(** *** Validation failures *)

(** C2. When the settings of some operation of the stack are invalid,
    [render] is rejected, no [render] of any operation is invoked (the
    calls made are [validateSettings] calls only, so neither [renderFinal]
    nor [resizeTo] is called either), and [this], its renderer included, is
    as it was before the call. *)
Theorem render_rejects_before_any_rendering (self : RI) :
  Exists invalid (_stack self) ->
  (exists e, outcome_of (render self) = Rejected e) /\
  object_of (render self) = self /\
  (exists k, trace_of (render self) = validations k) /\
  invoked (trace_of (render self)) = [] /\
  Forall other_event (trace_of (render self)).
Proof.
  intros Hinv. rewrite render_unfold.
  destruct (validate_some_invalid self Hinv) as [e [k Hk]].
  rewrite Hk. unfold outcome_of, object_of, trace_of. simpl.
  pose proof (validations_others 0 k) as Hv.
  repeat apply conj.
  - exists e. reflexivity.
  - reflexivity.
  - exists k. reflexivity.
  - apply invoked_others. exact Hv.
  - exact Hv.
Qed.

(** *** Successful runs *)

Lemma before_resize_unfold (self : RI) :
  before_resize self =
  match validate_step self with
  | (Fulfilled _, s1, t1) =>
      match render_step s1 with
      | (o, s2, t2) => (o, s2, t1 ++ t2)
      end
  | (Rejected e, s1, t1) => (Rejected e, s1, t1)
  end.
Proof.
  unfold before_resize. unfold bind at 1.
  destruct (validate_step self) as [[[u|e] s1] t1]; reflexivity.
Qed.

Lemma render_after_before_resize (self : RI) :
  render self =
  match before_resize self with
  | (Fulfilled _, s2, t2) =>
      match resize_step s2 with
      | (o, s3, t3) => (o, s3, t2 ++ t3)
      end
  | (Rejected e, s2, t2) => (Rejected e, s2, t2)
  end.
Proof. reflexivity. Qed.

(** When the chain up to the resize is fulfilled, every operation was
    validated, every operation was rendered, in the order in which the
    rendering phase takes them, and [renderFinal] was called after
    them. *)
Lemma before_resize_fulfilled (self s2 : RI) (u : unit) (t2 : list Event) :
  before_resize self = (Fulfilled u, s2, t2) ->
  t2 = validations (length (_stack self))
         ++ renderings (_stack self) ++ [EvRenderFinal] /\
  exists r, s2 = set_renderer r self.
Proof.
  rewrite before_resize_unfold.
  destruct (validate_step self) as [[[v|e] s1] t1] eqn:Hv; [|discriminate].
  destruct (validate_fulfilled _ _ _ _ Hv) as [-> [-> _]].
  rewrite render_step_unfold.
  destruct (take_in_turn_render_shape (render_order (_stack self)) self)
    as [_ [Hr1 [_ [_ Hful]]]].
  destruct (take_in_turn (render_order (_stack self)) render_mapper self)
    as [[[w|e] s] t] eqn:Hr; [|discriminate].
  unfold object_of, trace_of, outcome_of in *. cbn [fst snd] in *.
  rewrite (Hful eq_refl).
  destruct (Renderer.renderFinal (_renderer s)) as [o r2].
  intros [= -> <- <-]. split; [reflexivity|].
  exists r2. rewrite Hr1. reflexivity.
Qed.


(** *** The resize decision *)

Lemma fulfilled_run (res : Outcome unit * RI * list Event) :
  is_fulfilled (outcome_of res) = true ->
  res = (Fulfilled tt, object_of res, trace_of res).
Proof.
  destruct res as [[[[]|e] s] t]; [reflexivity|discriminate].
Qed.

(** C6. After the chain up to the resize is fulfilled and the final
    dimensions are resolved: when they equal the renderer's size, [render]
    is fulfilled without any [resizeTo] call and the renderer is left as it
    is; otherwise [resizeTo] is called exactly once, with the resolved
    dimensions, and [render] settles as that call does. *)
Theorem resizeTo_called_only_when_size_differs
    (self s2 : RI) (t2 : list Event) (d : Vector2) :
  before_resize self = (Fulfilled tt, s2, t2) ->
  ImageDimensions.calculateFinalDimensions (_dimensions s2)
    (Renderer.getSize (_renderer s2)) = Fulfilled d ->
  let size := Renderer.getSize (_renderer s2) in
  (d = size ->
     render self =
       (Fulfilled tt, s2, t2 ++ [EvGetSize; EvCalculateFinalDimensions size]) /\
     resizes (trace_of (render self)) = []) /\
  (d <> size ->
     render self =
       (fst (Renderer.resizeTo d (_renderer s2)),
        set_renderer (snd (Renderer.resizeTo d (_renderer s2))) s2,
        t2 ++ [EvGetSize; EvCalculateFinalDimensions size; EvResizeTo d]) /\
     resizes (trace_of (render self)) = [d]).
Proof.
  intros Hbefore Hdims size.
  destruct (before_resize_fulfilled _ _ _ _ Hbefore) as [Ht2 _].
  assert (Hnone : resizes t2 = []).
  { rewrite Ht2, !resizes_app, resizes_validations. unfold renderings.
    rewrite resizes_render_calls. reflexivity. }
  rewrite render_after_before_resize, Hbefore. unfold resize_step.
  rewrite Hdims. fold size. split; intros Hd.
  - apply Vector2_equals_spec in Hd. rewrite Hd. unfold trace_of. simpl.
    split; [reflexivity|]. rewrite resizes_app, Hnone. reflexivity.
  - apply Vector2_equals_false in Hd. rewrite Hd.
    destruct (Renderer.resizeTo d (_renderer s2)) as [o r].
    unfold trace_of. simpl.
    split; [reflexivity|]. rewrite resizes_app, Hnone. reflexivity.
Qed.

End RenderImageFacts.

(** ** RenderImage: the choice of the renderer *)

Section InitRendererFacts.
Import RenderImage.
Context {P : Platform} {R S : Type} {RO : Renderer.Ops R S}.

Lemma canvas_requested (preferredRenderer : option string) :
  match preferredRenderer with
  | Some s => String.eqb s "canvas"
  | None => false
  end = true <-> preferredRenderer = Some "canvas"%string.
Proof.
  destruct preferredRenderer as [s|]; [|split; discriminate].
  rewrite String.eqb_eq. split; congruence.
Qed.

(** C4, as the code has it.  [_initRenderer] probes the WebGL renderer
    first.  It constructs the WebGL renderer when that one is supported and
    the caller did not ask for ["canvas"], and then does not probe the
    canvas renderer at all; otherwise it constructs the canvas renderer
    when that one is supported.  It throws exactly when the canvas renderer
    is not supported and the WebGL renderer is either not supported or
    ruled out by the caller's preference for ["canvas"]. *)
Theorem initRenderer_selects_backend
    (env : Environment) (preferredRenderer : option string)
    (initialDimensions : Vector2) (image : Canvas2D.Bitmap) :
  let res :=
    _initRenderer (R := R) env preferredRenderer initialDimensions image in
  let webgl := webgl_isSupported env in
  let canvas := CanvasRenderer.isSupported (canvas_element env) in
  let canvas_wanted := preferredRenderer = Some "canvas"%string in
  hd_error (snd res) = Some EvWebGLIsSupported /\
  (webgl = true -> ~ canvas_wanted ->
     res = (Fulfilled
              (Renderer.drawImage image
                 (Renderer.newWebGLRenderer initialDimensions), true),
            [EvWebGLIsSupported; EvNewWebGLRenderer initialDimensions;
             EvDrawImage])) /\
  (webgl = false \/ canvas_wanted -> canvas = true ->
     res = (Fulfilled
              (Renderer.drawImage image
                 (Renderer.newCanvasRenderer initialDimensions), false),
            [EvWebGLIsSupported; EvCanvasIsSupported;
             EvNewCanvasRenderer initialDimensions; EvDrawImage])) /\
  (fst res = Rejected "Neither Canvas nor WebGL renderer are supported."%string
   <-> canvas = false /\ (webgl = false \/ canvas_wanted)).
Proof.
  cbv zeta. unfold _initRenderer.
  pose proof (canvas_requested preferredRenderer) as Hreq.
  destruct (match preferredRenderer with
            | Some s => String.eqb s "canvas"
            | None => false
            end) eqn:Hwanted;
    destruct (webgl_isSupported env) eqn:Hwebgl;
    destruct (CanvasRenderer.isSupported (canvas_element env)) eqn:Hcanvas;
    simpl; (split; [reflexivity|]);
    (split; [intros Hw Hn; first [reflexivity | discriminate
                                 | exfalso; apply Hn, Hreq; reflexivity]|]);
    (split; [intros Hor Hc; first [reflexivity | discriminate
               | destruct Hor as [Hor|Hor];
                 [discriminate | apply Hreq in Hor; discriminate]]|]);
    (split; [intros Hrej; first [discriminate
                                | split; [reflexivity|]; first
                                    [left; reflexivity
                                    |right; apply Hreq; reflexivity]]
            | intros [Hc Hor]; first [reflexivity | discriminate
                | destruct Hor as [Hor|Hor];
                  [discriminate | apply Hreq in Hor; discriminate]]]).
Qed.

End InitRendererFacts.

(** ** ImglyKit *)

Section ImglyKitFacts.
Context {P : Platform} {R S X : Type} {RO : Renderer.Ops R S}.

(** C10. [render] on an object whose options hold no image throws the
    error ["`options.image` is undefined."] at once: it does not return a
    promise, and no call has been made before, neither to the exporter's
    [validateSettings], nor to the [RenderImage] constructor, nor to a
    renderer's [isSupported] or constructor. *)
Theorem ImglyKit_render_throws_without_image
    (env : Environment) (exporter : ImageExporter.t S X)
    (self : ImglyKit.t (R := R))
    (renderType imageFormat dimensions : option string) :
  ImglyKit._options_image self = None ->
  ImglyKit.render env exporter self renderType imageFormat dimensions =
  (Thrown "`options.image` is undefined."%string, []).
Proof.
  intros Himage. unfold ImglyKit.render. rewrite Himage. reflexivity.
Qed.

End ImglyKitFacts.

(** ** Examples *)

Section Examples.
Import Canvas2D CanvasRenderer.
#[local] Existing Instance Example.platform.

Lemma example_platform_laws : PlatformLaws Example.platform.
Proof. constructor. intros s. reflexivity. Qed.

Lemma example_renderer_wf : wf Example.renderer.
Proof. apply drawImage_wf. apply new_wf. Qed.

(** The image drawn at construction fills the 2 x 2 canvas. *)
Example example_renderer_pixels :
  getSize Example.renderer = mkVector2 2 2 /\
  pixel (read Example.renderer (_canvas Example.renderer)) 1 1 = 4.
Proof. vm_compute. split; reflexivity. Qed.

(** The filter of the example platform on a row of two pixels, stretched
    to four. *)
Example example_bilinear_row :
  map (fun u => Example.bilinear (fun px _ => 10 + 100 * px) 2 1 4 1 u 0)
      [0; 1; 2; 3] = [10; 35; 85; 110].
Proof. reflexivity. Qed.

(** Resized to 4 x 6, the corners keep the old corner pixels; in between
    the filter of the example platform blends. *)
Example example_resizeTo_pixel :
  let st' := resizeTo (mkVector2 4 6) Example.renderer in
  getSize st' = mkVector2 4 6 /\
  pixel (read st' (_canvas st')) 3 5 = 4 /\
  pixel (read st' (_canvas st')) 0 0 = 1 /\
  map (fun px => pixel (read st' (_canvas st')) px 2) [0; 1; 2; 3]
    = [2; 2; 2; 3].
Proof. vm_compute. repeat split; reflexivity. Qed.

(** The example renderer resized from 2 x 2 to 4 x 6. *)
Lemma resizeTo_stretches_witness :
  let dimensions := mkVector2 4 6 in
  let st := Example.renderer in
  wf st /\
  0 <= x dimensions <= 2147483647 /\
  0 <= y dimensions <= 2147483647 /\
  0 < width (read st (_canvas st)) /\
  0 < height (read st (_canvas st)) /\
  let st' := resizeTo dimensions st in
  let old := read st (_canvas st) in
  let new := read st' (_canvas st') in
  store st !! _canvas st' = None /\
  is_Some (store st' !! _canvas st') /\
  _context st' = _canvas st' /\
  width new = 4 /\
  height new = 6 /\
  calls new = [mkDrawCall (Some (_canvas st)) 0 0 2 2 0 0 4 6] /\
  (forall px py,
      0 <= px < 4 -> 0 <= py < 6 ->
      pixel new px py =
      Example.bilinear (pixel old) 2 2 4 6 px py) /\
  read st' (_canvas st) = old.
Proof.
  cbv zeta.
  assert (Hx : 0 <= x (mkVector2 4 6) <= 2147483647) by (simpl; lia).
  assert (Hy : 0 <= y (mkVector2 4 6) <= 2147483647) by (simpl; lia).
  assert (Hw : 0 < width (read Example.renderer (_canvas Example.renderer)))
    by (vm_compute; reflexivity).
  assert (Hh : 0 < height (read Example.renderer (_canvas Example.renderer)))
    by (vm_compute; reflexivity).
  split; [exact example_renderer_wf|].
  split; [exact Hx|]. split; [exact Hy|].
  split; [exact Hw|]. split; [exact Hh|].
  pose proof (resizeTo_stretches_into_new_surface example_platform_laws
                (mkVector2 4 6) Example.renderer example_renderer_wf
                Hx Hy Hw Hh) as H.
  cbv zeta in H.
  destruct H as [H1 [H2 [H3 [H4 [H5 [H6 [H7 [_ H9]]]]]]]].
  split; [exact H1|]. split; [exact H2|]. split; [exact H3|].
  split; [exact H4|]. split; [exact H5|]. split; [exact H6|].
  split; [|exact H9].
  intros px py Hpx Hpy. exact (H7 px py Hpx Hpy).
Defined.


(** *** Runs of the pipeline *)

Import RenderImage.


(** A stack whose second operation rejects while rendering: the first is
    applied (2 x 2 becomes 4 x 4), the second leaves 1 x 1 behind, the
    third is never invoked. *)
Example example_run_failing :
  let self := Example.renderImage
                [Example.double; Example.failing; Example.double]
                Example.unchanged in
  outcome_of (render self) = Rejected "render failed"%string /\
  trace_of (render self) =
    [EvValidateSettings 0; EvValidateSettings 1; EvValidateSettings 2;
     EvRenderInvoked 0; EvRenderSettled 0 true;
     EvRenderInvoked 1; EvRenderSettled 1 false] /\
  Renderer.getSize (_renderer (object_of (render self))) = mkVector2 1 1.
Proof. vm_compute. repeat split; reflexivity. Qed.

(** A successful run that ends with a resize to 8 x 8. *)
Example example_run_resized :
  let self := Example.renderImage [Example.double]
                (Example.fixed (mkVector2 8 8)) in
  outcome_of (render self) = Fulfilled tt /\
  trace_of (render self) =
    [EvValidateSettings 0; EvRenderInvoked 0; EvRenderSettled 0 true;
     EvRenderFinal; EvGetSize; EvCalculateFinalDimensions (mkVector2 4 4);
     EvResizeTo (mkVector2 8 8)] /\
  Renderer.getSize (_renderer (object_of (render self))) = mkVector2 8 8.
Proof. vm_compute. repeat split; reflexivity. Qed.

Lemma render_rejects_before_any_rendering_witness :
  let self := Example.renderImage [Example.double; Example.invalid]
                Example.unchanged in
  Exists Operation.invalid (_stack self) /\
  object_of (render self) = self /\
  invoked (trace_of (render self)) = [].
Proof.
  cbv zeta.
  assert (H : Exists Operation.invalid
                (_stack (Example.renderImage
                           [Example.double; Example.invalid]
                           Example.unchanged))).
  { simpl. apply Exists_cons_tl, Exists_cons_hd.
    exists "invalid settings"%string. reflexivity. }
  split; [exact H|].
  pose proof (render_rejects_before_any_rendering _ H) as T.
  split; [exact (proj1 (proj2 T))|exact (proj1 (proj2 (proj2 (proj2 T))))].
Defined.

(** C1 at a stack of three operations whose first works asynchronously:
    the promise of its [render] is pending when the mapper returns, so the
    two operations after it wait, and they are taken from the end of the
    queue.  The third operation is rendered before the second: the
    picture, made wider by one pixel and then doubled in the order of the
    stack (10 x 8), is doubled first and then made wider (9 x 8). *)
Theorem render_takes_waiting_operations_last_first :
  let stack := [Example.later Example.double; Example.widen; Example.double] in
  let self := Example.renderImage stack Example.unchanged in
  outcome_of (render self) = Fulfilled tt /\
  invoked (trace_of (render self)) = [0; 2; 1]%nat /\
  Renderer.getSize (_renderer (object_of (render self))) = mkVector2 9 8 /\
  Renderer.getSize (snd (apply_in_turn stack (_renderer self))) =
    mkVector2 10 8.
Proof. vm_compute. repeat split; reflexivity. Qed.

(** C3 at a stack of three operations whose first works asynchronously
    and whose second rejects: the third operation is invoked, and
    fulfilled, before the second is invoked and rejects. *)
Theorem render_invokes_the_last_operation_before_the_failing_one :
  let self := Example.renderImage
                [Example.later Example.double; Example.failing;
                 Example.double]
                Example.unchanged in
  outcome_of (render self) = Rejected "render failed"%string /\
  trace_of (render self) =
    [EvValidateSettings 0; EvValidateSettings 1; EvValidateSettings 2;
     EvRenderInvoked 0; EvRenderSettled 0 true;
     EvRenderInvoked 2; EvRenderSettled 2 true;
     EvRenderInvoked 1; EvRenderSettled 1 false] /\
  In (EvRenderInvoked 2) (trace_of (render self)).
Proof.
  vm_compute. split; [reflexivity|]. split; [reflexivity|].
  do 5 right. left. reflexivity.
Qed.


Lemma resizeTo_called_only_when_size_differs_witness :
  let self := Example.renderImage [Example.double]
                (Example.fixed (mkVector2 4 4)) in
  is_fulfilled (outcome_of (before_resize self)) = true /\
  resizes (trace_of (render self)) = [].
Proof.
  cbv zeta.
  assert (H : is_fulfilled (outcome_of (before_resize
                (Example.renderImage [Example.double]
                   (Example.fixed (mkVector2 4 4))))) = true).
  { vm_compute. reflexivity. }
  split; [exact H|].
  refine (proj2 (proj1 (resizeTo_called_only_when_size_differs
            (Example.renderImage [Example.double]
               (Example.fixed (mkVector2 4 4)))
            _ _ (mkVector2 4 4) (fulfilled_run _ H) _) _)).
  - vm_compute. reflexivity.
  - vm_compute. reflexivity.
Defined.

Lemma ImglyKit_render_throws_without_image_witness :
  let kit := ImglyKit.mk None None [Example.double] in
  ImglyKit._options_image kit = None /\
  ImglyKit.render (Example.environment true Example.with_2d)
    Example.exporter kit None None None =
  (Thrown "`options.image` is undefined."%string, []).
Proof.
  cbv zeta. split; [reflexivity|].
  apply (ImglyKit_render_throws_without_image
           (Example.environment true Example.with_2d) Example.exporter
           (ImglyKit.mk None None [Example.double]) None None None).
  reflexivity.
Defined.

(** With an image the same call goes through the whole pipeline. *)
Example example_kit_render :
  snd (ImglyKit.render (Example.environment false Example.with_2d)
         Example.exporter
         (ImglyKit.mk (Some Example.image) None [Example.double])
         None None None) =
  [EvExporterValidateSettings; EvNewImageDimensions;
   EvWebGLIsSupported; EvCanvasIsSupported;
   EvNewCanvasRenderer (mkVector2 2 2); EvDrawImage;
   EvValidateSettings 0; EvRenderInvoked 0; EvRenderSettled 0 true;
   EvRenderFinal; EvGetSize; EvCalculateFinalDimensions (mkVector2 4 4);
   EvGetCanvas; EvExport].
Proof. vm_compute. reflexivity. Qed.

(** C4, as the claim has it, fails: the caller asks for ["canvas"], the
    WebGL renderer reports support, the canvas renderer does not, and the
    construction throws although a backend reports support. *)
Lemma initRenderer_throws_although_webgl_supported :
  let env := Example.environment true Example.without_getContext in
  webgl_isSupported env = true /\
  CanvasRenderer.isSupported (canvas_element env) = false /\
  _initRenderer (R := Renderer.Object) env (Some "canvas"%string)
    (mkVector2 2 2) Example.image =
  (Rejected "Neither Canvas nor WebGL renderer are supported."%string,
   [EvWebGLIsSupported; EvCanvasIsSupported]).
Proof. cbv zeta. repeat split; reflexivity. Qed.

End Examples.

(** ** More about the canvas renderer *)

Section CanvasRendererMore.
Import Canvas2D CanvasRenderer.
Context {P : Platform}.

(** The renderer after [resizeTo]: where the new canvas is, what it holds,
    and that nothing else of the store has changed. *)
Lemma resizeTo_result (dimensions : Vector2) (st : State) :
  is_Some (store st !! _canvas st) ->
  let a := fst (createCanvas st) in
  let old := read st (_canvas st) in
  let st' := resizeTo dimensions st in
  _canvas st' = a /\ _context st' = a /\
  read st' a =
    drawImage9 (Some (_canvas st)) (bitmap_of old)
      0 0 (width old) (height old) 0 0 (x dimensions) (y dimensions)
      (mkCanvas (x dimensions) (y dimensions) (fun _ _ => transparent) []) /\
  is_Some (store st' !! a) /\
  (forall b, b <> a -> store st' !! b = store (snd (createCanvas st)) !! b).
Proof.
  intros Hc a old st'. subst st'. rewrite resizeTo_unfold. cbv zeta. fold a.
  pose proof (read_sized st (x dimensions) (y dimensions)) as Hnew.
  pose proof (read_sized_old st (set_height (y dimensions))
                (set_width (x dimensions)) _ Hc) as Hold.
  cbv zeta in Hnew, Hold. fold a in Hnew, Hold.
  rewrite Hnew, Hold. fold old. cbn [width height].
  assert (Hall : is_Some (store (write a (set_height (y dimensions))
                    (write a (set_width (x dimensions))
                       (snd (createCanvas st)))) !! a)).
  { do 2 apply write_allocated. unfold a. rewrite createCanvas_new.
    eexists. reflexivity. }
  repeat apply conj.
  - reflexivity.
  - reflexivity.
  - rewrite read_setCanvas, read_write_eq by exact Hall.
    rewrite Hnew. reflexivity.
  - unfold setCanvas. cbn [store]. apply write_allocated. exact Hall.
  - intros b Hb. unfold setCanvas. cbn [store].
    change (store (write a
      (drawImage9 (Some (_canvas st)) (bitmap_of old) 0 0
         (width old) (height old) 0 0 (x dimensions) (y dimensions))
      (write a (set_height (y dimensions))
         (write a (set_width (x dimensions)) (snd (createCanvas st))))) !! b
      = store (snd (createCanvas st)) !! b).
    rewrite !store_write_ne by congruence. reflexivity.
Qed.

Lemma cloneCanvas_result (st : State) :
  is_Some (store st !! _canvas st) ->
  let a := fst (createCanvas st) in
  let st' := snd (cloneCanvas st) in
  fst (cloneCanvas st) = a /\
  _canvas st' = _canvas st /\ _context st' = _context st /\
  is_Some (store st' !! a) /\
  (forall b, b <> a -> store st' !! b = store (snd (createCanvas st)) !! b).
Proof.
  intros Hc. cbv zeta. rewrite (cloneCanvas_eq st Hc). cbn [fst snd].
  set (a := fst (createCanvas st)).
  repeat apply conj; try reflexivity.
  - do 3 apply write_allocated. unfold a. rewrite createCanvas_new.
    eexists. reflexivity.
  - intros b Hb. rewrite !store_write_ne by congruence. reflexivity.
Qed.

(** X8. [drawImage (image)], for an image that has pixels, on a renderer
    whose canvas is cleared (as it is right after construction): the canvas
    keeps its size, and one [drawImage] call is made, from the whole image
    to the whole canvas.  When the canvas has the size of the image, the
    canvas then shows the image pixel for pixel; otherwise every pixel of
    the canvas is what the platform's scaling of the whole image to the
    size of the canvas gives. *)
Theorem drawImage_on_cleared_canvas_shows_image
    (L : PlatformLaws P) (image : Bitmap) (st : State) :
  wf st ->
  _context st = _canvas st ->
  (forall px py, pixel (read st (_canvas st)) px py = transparent) ->
  0 < b_width image ->
  0 < b_height image ->
  let c := read st (_canvas st) in
  let c' := read (drawImage image st) (_canvas (drawImage image st)) in
  width c' = width c /\ height c' = height c /\
  calls c' = calls c ++ [mkDrawCall None 0 0 (b_width image) (b_height image)
                                    0 0 (width c) (height c)] /\
  (forall px py, 0 <= px < width c -> 0 <= py < height c ->
     pixel c' px py =
     if (b_width image =? width c) && (b_height image =? height c)
     then b_pixel image px py
     else scaled (b_pixel image) (b_width image) (b_height image)
                 (width c) (height c) px py) /\
  (width c = b_width image -> height c = b_height image ->
   forall px py, 0 <= px < width c -> 0 <= py < height c ->
     pixel c' px py = b_pixel image px py).
Proof.
  intros [Hc _] Hctx Hclear _ _ c c'.
  assert (Hc' : c' = drawImage9 None image 0 0 (b_width image)
                       (b_height image) 0 0 (width c) (height c) c).
  { subst c'. unfold drawImage. rewrite Hctx.
    change (_canvas (write (_canvas st) ?f st)) with (_canvas st).
    rewrite read_write_eq by exact Hc. reflexivity. }
  assert (Hpix : forall px py, 0 <= px < width c -> 0 <= py < height c ->
            pixel c' px py =
            if (b_width image =? width c) && (b_height image =? height c)
            then b_pixel image px py
            else scaled (b_pixel image) (b_width image) (b_height image)
                        (width c) (height c) px py).
  { intros px py Hx Hy. rewrite Hc'. cbn [pixel drawImage9].
    assert (Hin : in_rect px py 0 0 (width c) (height c) = true)
      by (apply in_rect_true; lia).
    rewrite Hin. unfold c at 3. rewrite Hclear, over_transparent, !Z.sub_0_r.
    apply painted_whole. }
  split; [rewrite Hc'; reflexivity|].
  split; [rewrite Hc'; reflexivity|].
  split; [rewrite Hc'; reflexivity|].
  split; [exact Hpix|].
  intros Hw Hh px py Hx Hy. rewrite (Hpix px py Hx Hy), <- Hw, <- Hh.
  rewrite !Z.eqb_refl. reflexivity.
Qed.


(** X10. The renderer stays well formed: after [drawImage], [resizeTo] and
    [cloneCanvas] its canvas and its context are allocated canvases; after
    [resizeTo] the context is the one of the active canvas
    ([_getContext]); and none of the three removes or changes the size of
    a canvas that existed before. *)
Theorem renderer_stays_well_formed
    (image : Bitmap) (dimensions : Vector2) (st : State) :
  wf st ->
  wf (drawImage image st) /\
  wf (resizeTo dimensions st) /\
  _context (resizeTo dimensions st) = _getContext (resizeTo dimensions st) /\
  wf (snd (cloneCanvas st)) /\
  (forall b, is_Some (store st !! b) ->
     is_Some (store (drawImage image st) !! b) /\
     width (read (drawImage image st) b) = width (read st b) /\
     height (read (drawImage image st) b) = height (read st b) /\
     store (resizeTo dimensions st) !! b = store st !! b /\
     store (snd (cloneCanvas st)) !! b = store st !! b).
Proof.
  intros Hwf. pose proof Hwf as [Hc Hx].
  destruct (resizeTo_result dimensions st Hc) as [Hcan [Hctx [_ [Hall Hrest]]]].
  destruct (cloneCanvas_result st Hc) as [_ [Hccan [Hcctx [_ Hcrest]]]].
  assert (Hkeep : forall b, is_Some (store st !! b) ->
            store (resizeTo dimensions st) !! b = store st !! b /\
            store (snd (cloneCanvas st)) !! b = store st !! b).
  { intros b Hb. destruct (createCanvas_old st b Hb) as [Hne Hold].
    rewrite Hrest, Hcrest by exact Hne. split; exact Hold. }
  split; [apply drawImage_wf; exact Hwf|].
  split; [split; [rewrite Hcan|rewrite Hctx]; exact Hall|].
  split; [unfold _getContext; rewrite Hcan, Hctx; reflexivity|].
  split.
  { split.
    - rewrite Hccan. destruct (Hkeep _ Hc) as [_ ->]. exact Hc.
    - rewrite Hcctx. destruct (Hkeep _ Hx) as [_ ->]. exact Hx. }
  intros b Hb. destruct (Hkeep b Hb) as [Hr Hcl].
  repeat apply conj; [| | |exact Hr|exact Hcl].
  - unfold drawImage. apply write_allocated. exact Hb.
  - unfold drawImage. destruct (decide (_context st = b)) as [->|Hne].
    + rewrite read_write_eq by exact Hb. reflexivity.
    + rewrite read_write_ne by exact Hne. reflexivity.
  - unfold drawImage. destruct (decide (_context st = b)) as [->|Hne].
    + rewrite read_write_eq by exact Hb. reflexivity.
    + rewrite read_write_ne by exact Hne. reflexivity.
Qed.


(** X11. A clone is a snapshot: once [cloneCanvas] has returned it, neither
    drawing an image on the renderer nor resizing the renderer changes the
    cloned canvas, and a second clone is another object. *)
Theorem clone_is_unaffected_by_later_rendering
    (image : Bitmap) (dimensions : Vector2) (st : State) :
  wf st ->
  let clone := fst (cloneCanvas st) in
  let st1 := snd (cloneCanvas st) in
  read (drawImage image st1) clone = read st1 clone /\
  read (resizeTo dimensions st1) clone = read st1 clone /\
  fst (cloneCanvas st1) <> clone /\
  _canvas (resizeTo dimensions st1) <> clone.
Proof.
  intros [Hc Hx] clone st1.
  destruct (cloneCanvas_result st Hc) as [Hclone [Hcan [Hctx [Hall Hrest]]]].
  fold clone in Hclone. fold st1 in Hcan, Hctx, Hall, Hrest.
  rewrite <- Hclone in Hall, Hrest.
  assert (Hfresh : store st !! clone = None)
    by (rewrite Hclone; apply createCanvas_fresh).
  assert (Hc1 : is_Some (store st1 !! _canvas st1)).
  { rewrite Hcan. destruct (createCanvas_old st _ Hc) as [Hne Hold].
    rewrite Hrest by (rewrite Hclone; exact Hne). rewrite Hold. exact Hc. }
  assert (Hxne : _context st1 <> clone).
  { rewrite Hctx. intros Heq. rewrite Heq, Hfresh in Hx.
    destruct Hx as [? [=]]. }
  destruct (createCanvas_old st1 clone Hall) as [Hne1 Hold1].
  destruct (resizeTo_result dimensions st1 Hc1) as [Hrcan [_ [_ [_ Hrrest]]]].
  destruct (cloneCanvas_result st1 Hc1) as [Hclone2 _].
  repeat apply conj.
  - unfold drawImage. apply read_write_ne. exact Hxne.
  - unfold read. rewrite Hrrest by exact Hne1. rewrite Hold1. reflexivity.
  - rewrite Hclone2. congruence.
  - rewrite Hrcan. congruence.
Qed.

End CanvasRendererMore.

(** ** The chain of [render] and the direct sequence *)

Section RenderDirect.
Import RenderImage.
Import Operation (valid, invalid).
Context {P : Platform} {R S : Type} {RO : Renderer.Ops R S}.

Abbreviation Op' := (Operation.t R).
Abbreviation RI' := (@RenderImage.t P R).

(** X1. For a stack of valid operations the promise chain of [render] is
    the direct sequence: its outcome and the renderer it leaves are those
    of applying the operations, in the order in which the rendering phase
    takes them, up to the first that rejects, then calling [renderFinal],
    then taking the resize decision, each step only when the one before
    succeeded. *)
Theorem render_is_the_direct_sequence (self : RI') :
  Forall valid (_stack self) ->
  (outcome_of (render self), _renderer (object_of (render self))) =
  render_direct (_stack self) (_dimensions self) (_renderer self).
Proof.
  intros Hall. rewrite render_unfold. unfold render_direct, apply_stack.
  rewrite (validate_all_valid self Hall), render_step_unfold.
  destruct (take_in_turn_render_shape (render_order (_stack self)) self)
    as [_ [Hs [-> _]]].
  destruct (take_in_turn (render_order (_stack self)) render_mapper self)
    as [[[[]|e] s] t]; unfold object_of, outcome_of in *; cbn [fst snd] in *;
    [|reflexivity].
  destruct (Renderer.renderFinal (_renderer s)) as [[[]|e] r2];
    [|reflexivity].
  unfold resize_step, resize_direct. cbn [_renderer set_renderer _dimensions].
  rewrite Hs. cbn [_dimensions set_renderer].
  destruct (ImageDimensions.calculateFinalDimensions (_dimensions self)
              (Renderer.getSize r2)) as [d|e]; [|reflexivity].
  destruct (Vector2.equals d (Renderer.getSize r2)); [reflexivity|].
  destruct (Renderer.resizeTo d r2) as [o r3]. reflexivity.
Qed.

(** X2. When every operation is valid and rendered and [renderFinal] then
    rejects, [render] is rejected with that error, the effects of the
    operations stay, and the size is not read nor the renderer resized:
    [renderFinal] is the last call. *)
Theorem render_rejects_when_renderFinal_rejects
    (self : RI') (r1 r2 : R) (e : Error) :
  Forall valid (_stack self) ->
  apply_stack (_stack self) (_renderer self) = (Fulfilled tt, r1) ->
  Renderer.renderFinal r1 = (Rejected e, r2) ->
  let n := length (_stack self) in
  render self =
  (Rejected e, set_renderer r2 self,
   validations n ++ renderings (_stack self) ++ [EvRenderFinal]).
Proof.
  intros Hval Happ Hfinal n.
  rewrite render_unfold, (validate_all_valid self Hval).
  rewrite render_step_unfold,
    (render_all_fulfilled (render_order (_stack self)) self r1 Happ).
  cbn [_renderer set_renderer]. rewrite Hfinal. reflexivity.
Qed.

(** X3. When every operation is valid and rendered, [renderFinal] is
    fulfilled and the final dimensions cannot be resolved, [render] is
    rejected with the resolver's error after the size was read;
    [resizeTo] is not called and the renderer stays as [renderFinal] left
    it. *)
Theorem render_rejects_when_dimensions_fail
    (self : RI') (r1 r2 : R) (e : Error) :
  Forall valid (_stack self) ->
  apply_stack (_stack self) (_renderer self) = (Fulfilled tt, r1) ->
  Renderer.renderFinal r1 = (Fulfilled tt, r2) ->
  ImageDimensions.calculateFinalDimensions (_dimensions self)
    (Renderer.getSize r2) = Rejected e ->
  let n := length (_stack self) in
  render self =
  (Rejected e, set_renderer r2 self,
   validations n ++ renderings (_stack self)
     ++ [EvRenderFinal; EvGetSize;
         EvCalculateFinalDimensions (Renderer.getSize r2)]).
Proof.
  intros Hval Happ Hfinal Hdims n.
  rewrite render_unfold, (validate_all_valid self Hval).
  rewrite render_step_unfold,
    (render_all_fulfilled (render_order (_stack self)) self r1 Happ).
  cbn [_renderer set_renderer]. rewrite Hfinal.
  unfold resize_step. cbn [_renderer set_renderer _dimensions].
  rewrite Hdims. cbn. unfold renderings. rewrite <- !app_assoc. reflexivity.
Qed.

Lemma In_tail_not_In_front {A : Type} (front tail : list A) (a b : A) :
  NoDup (front ++ a :: tail) -> In b tail -> ~ In b (front ++ [a]).
Proof.
  induction front as [|c front IH]; simpl; intros Hnd Hb.
  - inversion Hnd as [|? ? Ha _]; subst. intros [->|[]].
    apply Ha, list_elem_of_In. exact Hb.
  - inversion Hnd as [|? ? Hc Hrest]; subst. intros [->|Hin].
    + apply Hc, list_elem_of_In. apply in_or_app. right. right. exact Hb.
    + exact (IH Hrest Hb Hin).
Qed.

(** X18. The [render] calls of every run are made one at a time, in the
    order in which [bluebird.map] with [{ concurrency: 1 }] takes the
    operations: the operations invoked are the first of that order; that
    order holds every operation once; it is the order of the stack when no
    [render] promise is pending at return, and when the operation after
    [before] is the first with a pending promise, it is the order of the
    stack up to that operation followed by the other operations from the
    last backwards.  When every operation is valid and every [render] is
    fulfilled, every operation is invoked, in that order.  At no point of
    a run is more than one [render] call in flight, and when an operation
    is invoked, every operation invoked before it has settled. *)
Theorem render_calls_one_at_a_time_in_the_order_taken (self : RI') :
  let t := trace_of (render self) in
  let n := length (_stack self) in
  let order := map fst (render_order (_stack self)) in
  (exists k, (k <= n)%nat /\ invoked t = firstn k order) /\
  Permutation order (seq 0 n) /\
  (Forall (fun op => Operation.render_pending op = false) (_stack self) ->
   order = seq 0 n) /\
  (forall before op after,
     _stack self = before ++ op :: after ->
     Forall (fun op => Operation.render_pending op = false) before ->
     Operation.render_pending op = true ->
     order = seq 0 (length before + 1)
               ++ rev (seq (length before + 1) (length after))) /\
  (Forall valid (_stack self) ->
   is_fulfilled (fst (apply_stack (_stack self) (_renderer self))) = true ->
   invoked t = order) /\
  (forall p s, t = p ++ s -> (length (in_flight p) <= 1)%nat) /\
  (forall p j s, t = p ++ EvRenderInvoked j :: s ->
     forall i, In i (invoked p) -> exists ok, In (EvRenderSettled i ok) p).
Proof.
  intros t n order. destruct (render_shape self) as [Hone [Hinv _]].
  fold t in Hone, Hinv. fold n order in Hinv.
  split; [exact Hinv|].
  split; [apply render_order_indices|].
  split.
  { intros Hnone. unfold order, render_order.
    rewrite (taken_from_none_pending _ 0 _ Hnone). apply indexed_fst. }
  split.
  { intros before op after Hstack Hbefore Hop. unfold order, render_order.
    rewrite Hstack, (taken_from_first_pending _ 0 _ _ _ Hbefore Hop).
    rewrite map_app, map_rev, !indexed_fst, length_app. reflexivity. }
  split.
  { intros Hval Hok. unfold t. rewrite (render_invoked self Hval).
    destruct (take_in_turn_render_shape (render_order (_stack self)) self)
      as [_ [_ [Happ [_ Hful]]]].
    unfold apply_stack in Hok. rewrite Happ in Hok. cbn [fst] in Hok.
    rewrite (Hful Hok). apply invoked_render_calls. }
  split; [exact (one_at_a_time_in_flight t Hone)|].
  exact (one_at_a_time_settled_before t Hone).
Qed.

(** X19. When, in the order in which the rendering phase takes the
    operations, the operation after [pre] is the first whose [render]
    rejects, [render] is rejected with its error; the calls made are the
    validations, the successful [render] calls of [pre] and the rejected
    call; no operation that comes later in that order is invoked, and
    neither [renderFinal] nor [resizeTo] is called; the renderer is left
    as the operations of [pre] and the failing operation left it (nothing
    is rolled back). *)
Theorem render_aborts_at_first_rejected_call
    (self : RI') (pre post : list (nat * Op')) (i : nat) (op : Op')
    (r1 r2 : R) (e : Error) :
  Forall valid (_stack self) ->
  render_order (_stack self) = pre ++ (i, op) :: post ->
  apply_in_turn (map snd pre) (_renderer self) = (Fulfilled tt, r1) ->
  Operation.render op r1 = (Rejected e, r2) ->
  let t := trace_of (render self) in
  outcome_of (render self) = Rejected e /\
  _renderer (object_of (render self)) = r2 /\
  apply_stack (_stack self) (_renderer self) = (Rejected e, r2) /\
  t = validations (length (_stack self))
        ++ flat_map (render_call true) (map fst pre)
        ++ render_call false i /\
  (forall j, In j (map fst post) -> ~ In (EvRenderInvoked j) t) /\
  ~ In EvRenderFinal t /\
  resizes t = [].
Proof.
  intros Hval Horder Hpre Hop t.
  assert (Hrun : render self =
            (Rejected e, set_renderer r2 self,
             validations (length (_stack self))
               ++ flat_map (render_call true) (map fst pre)
               ++ render_call false i)).
  { rewrite render_unfold, (validate_all_valid self Hval).
    rewrite render_step_unfold, Horder.
    rewrite (render_first_rejected pre post i op self r1 r2 e Hpre Hop).
    reflexivity. }
  assert (Hnodup : NoDup (map fst pre ++ i :: map fst post)).
  { change (i :: map fst post) with (map fst ((i, op) :: post)).
    rewrite <- map_app, <- Horder, render_order_indices.
    apply NoDup_seq. }
  subst t. rewrite Hrun. unfold outcome_of, object_of, trace_of. simpl.
  split; [reflexivity|]. split; [reflexivity|].
  split.
  { unfold apply_stack. rewrite Horder, map_app. cbn [map snd].
    clear -Hpre Hop. revert Hpre. generalize (_renderer self).
    induction (map snd pre) as [|p l IH]; intros r Hpre; simpl in *.
    - injection Hpre as <-. rewrite Hop. reflexivity.
    - destruct (Operation.render p r) as [[[]|e'] r0]; [|discriminate].
      apply IH. exact Hpre. }
  split; [reflexivity|].
  split.
  { intros j Hj Hin. apply invoked_complete in Hin.
    rewrite !invoked_app in Hin. unfold validations in Hin.
    rewrite (invoked_others _ (validations_others 0 _)) in Hin.
    rewrite invoked_render_calls in Hin. simpl in Hin.
    exact (In_tail_not_In_front _ _ _ _ Hnodup Hj Hin). }
  split.
  { unfold validations. rewrite !in_app_iff. intros [Hin|[Hin|Hin]].
    + apply in_map_iff in Hin. destruct Hin as [k [Hk _]]. discriminate.
    + apply in_flat_map in Hin.
      destruct Hin as [k [_ [Hk|[Hk|[]]]]]; discriminate.
    + destruct Hin as [Hk|[Hk|[]]]; discriminate. }
  rewrite !resizes_app, resizes_validations, resizes_render_calls.
  reflexivity.
Qed.

End RenderDirect.

(** ** The constructor of [RenderImage] *)

Section RenderImageNew.
Import RenderImage.
Context {P : Platform} {R S : Type} {RO : Renderer.Ops R S}.

(** X4. The constructor of [RenderImage].  When [new ImageDimensions]
    throws, the constructor throws the same error before any renderer is
    probed.  When the constructor returns, the object holds the image, the
    stack and the preference it was given, its initial dimensions are the
    width and height of the image, its renderer was constructed at these
    dimensions by the class that [_webglEnabled] names, and [drawImage]
    was called exactly once, as the last call. *)
Theorem RenderImage_constructor_draws_image_once
    (env : Environment) (image : Canvas2D.Bitmap)
    (operationsStack : list (Operation.t R))
    (dimensions preferredRenderer : option string) :
  let res := new (R := R) env image operationsStack dimensions
               preferredRenderer in
  let size := mkVector2 (Canvas2D.b_width image) (Canvas2D.b_height image) in
  (forall e, newImageDimensions env dimensions = Rejected e ->
     res = (Rejected e, [EvNewImageDimensions])) /\
  (forall self t, res = (Fulfilled self, t) ->
     _image self = image /\
     _stack self = operationsStack /\
     _options_preferredRenderer self = preferredRenderer /\
     _initialDimensions self = size /\
     newImageDimensions env dimensions = Fulfilled (_dimensions self) /\
     _renderer self =
       Renderer.drawImage image
         (if _webglEnabled self then Renderer.newWebGLRenderer size
          else Renderer.newCanvasRenderer size) /\
     In (if _webglEnabled self then EvNewWebGLRenderer size
         else EvNewCanvasRenderer size) t /\
     List.filter is_draw_image t = [EvDrawImage] /\
     last t = Some EvDrawImage).
Proof.
  cbv zeta. unfold new. split.
  - intros e He. rewrite He. reflexivity.
  - intros self t.
    destruct (newImageDimensions env dimensions) as [dims|e]; [|discriminate].
    unfold _initRenderer.
    destruct (webgl_isSupported env &&
              negb match preferredRenderer with
                   | Some s => String.eqb s "canvas"
                   | None => false
                   end);
      [|destruct (CanvasRenderer.isSupported (canvas_element env));
        [|discriminate]];
      intros [= <- <-]; cbn; repeat apply conj; try reflexivity; auto.
Qed.

End RenderImageNew.

(** ** [ImglyKit.render]: what happens after the image check *)

Section ImglyKitMore.
Import RenderImage.
Context {P : Platform} {R S X : Type} {RO : Renderer.Ops R S}.

Lemma new_trace_before_draw
    (env : Environment) (image : Canvas2D.Bitmap)
    (stack : list (Operation.t R)) (dimensions renderer : option string) :
  let res := new (R := R) env image stack dimensions renderer in
  List.filter is_export (snd res) = [] /\
  List.filter pipeline_event (snd res) = [] /\
  (is_fulfilled (fst res) = false -> forallb before_renderer (snd res) = true) /\
  (is_fulfilled (fst res) = true -> In EvDrawImage (snd res)) /\
  (renderer = Some CanvasRenderer.identifier ->
     List.filter is_new_webgl (snd res) = []).
Proof.
  cbv zeta. unfold new.
  destruct (newImageDimensions env dimensions) as [dims|e];
    [|cbn; repeat apply conj; try reflexivity; intros; discriminate].
  unfold _initRenderer.
  destruct renderer as [s|].
  - destruct (String.eqb s "canvas") eqn:Hs;
      destruct (webgl_isSupported env);
      destruct (CanvasRenderer.isSupported (canvas_element env));
      cbn; repeat apply conj; try reflexivity;
      try (intros; discriminate); try (intros; cbn; tauto);
      intros [= ->]; discriminate.
  - destruct (webgl_isSupported env);
      destruct (CanvasRenderer.isSupported (canvas_element env));
      cbn; repeat apply conj; try reflexivity;
      try (intros; discriminate); try (intros; cbn; tauto).
Qed.

(** Every call of [RenderImage.render] is a call of the pipeline. *)
Lemma render_events_are_pipeline_events (self : RenderImage.t (R := R)) :
  forallb pipeline_event (trace_of (render self)) = true.
Proof.
  rewrite render_unfold.
  assert (Hval : forall k, forallb pipeline_event (validations k) = true).
  { intros k. unfold validations. generalize 0%nat as i.
    induction k as [|k IH]; intros i; [reflexivity|]. simpl. apply IH. }
  assert (Hren : forall queue (s : RenderImage.t (R := R)),
            forallb pipeline_event
              (trace_of (take_in_turn queue render_mapper s)) = true).
  { induction queue as [|[i op] queue IH]; intros s; [reflexivity|].
    rewrite take_in_turn_render_cons.
    destruct (Operation.render op (_renderer s)) as [[[]|e] r1];
      [|reflexivity].
    specialize (IH (set_renderer r1 s)).
    destruct (take_in_turn queue render_mapper (set_renderer r1 s))
      as [[o s2] t2]. exact IH. }
  destruct (valid_or_invalid (_stack self)) as [Hall|Hinv].
  - rewrite (validate_all_valid self Hall), render_step_unfold.
    specialize (Hren (render_order (_stack self)) self).
    destruct (take_in_turn (render_order (_stack self)) render_mapper self)
      as [[[u|e] s] t]; unfold trace_of in *; cbn [snd] in *.
    + destruct (Renderer.renderFinal (_renderer s)) as [[[]|e] r2].
      * unfold resize_step.
        destruct (ImageDimensions.calculateFinalDimensions _ _) as [d|e].
        -- destruct (Vector2.equals _ _);
             [|destruct (Renderer.resizeTo _ _) as [o r3]];
             cbn [snd]; rewrite !forallb_app, Hval, Hren; reflexivity.
        -- cbn [snd]. rewrite !forallb_app, Hval, Hren. reflexivity.
      * cbn [snd]. rewrite !forallb_app, Hval, Hren. reflexivity.
    + rewrite forallb_app, Hval, Hren. reflexivity.
  - destruct (validate_some_invalid self Hinv) as [e [k Hk]].
    rewrite Hk. apply Hval.
Qed.

Lemma pipeline_events_filtered (f : Event -> bool) (t : list Event) :
  (forall e, pipeline_event e = true -> f e = false) ->
  forallb pipeline_event t = true -> List.filter f t = [].
Proof.
  intros Hf. induction t as [|e t IH]; [reflexivity|].
  simpl. intros H. apply andb_true_iff in H. destruct H as [He Ht].
  rewrite (Hf e He). apply IH. exact Ht.
Qed.

(** X5. The errors that [ImglyKit.render] throws before a renderer is
    constructed, for a kit with an image.  When the exporter's
    [validateSettings] throws, [render] throws that error and has made no
    other call.  When [new ImageDimensions] throws, [render] throws that
    error after these two calls, before any renderer is probed.  When the
    canvas renderer is not supported and the WebGL renderer is not
    supported or ruled out by the option ["canvas"], [render] throws the
    error of [_initRenderer] after the two probes.  In none of the three
    cases is a renderer constructed, an image drawn or an operation
    validated or rendered. *)
Theorem ImglyKit_render_throws_before_a_renderer_is_constructed
    (env : Environment) (exporter : ImageExporter.t S X)
    (self : ImglyKit.t (R := R))
    (renderType imageFormat dimensions : option string)
    (image : Canvas2D.Bitmap) :
  ImglyKit._options_image self = Some image ->
  let res :=
    ImglyKit.render env exporter self renderType imageFormat dimensions in
  (forall e,
     ImageExporter.validateSettings exporter renderType imageFormat =
       Rejected e ->
     res = (Thrown e, [EvExporterValidateSettings])) /\
  (forall settings e,
     ImageExporter.validateSettings exporter renderType imageFormat =
       Fulfilled settings ->
     newImageDimensions env dimensions = Rejected e ->
     res = (Thrown e, [EvExporterValidateSettings; EvNewImageDimensions])) /\
  (forall settings dims,
     ImageExporter.validateSettings exporter renderType imageFormat =
       Fulfilled settings ->
     newImageDimensions env dimensions = Fulfilled dims ->
     CanvasRenderer.isSupported (canvas_element env) = false ->
     webgl_isSupported env = false \/
       ImglyKit._options_renderer self = Some CanvasRenderer.identifier ->
     res = (Thrown "Neither Canvas nor WebGL renderer are supported."%string,
            [EvExporterValidateSettings; EvNewImageDimensions;
             EvWebGLIsSupported; EvCanvasIsSupported])).
Proof.
  intros Himage. cbv zeta. unfold ImglyKit.render. rewrite Himage.
  split.
  { intros e He. rewrite He. reflexivity. }
  split.
  - intros [rt fmt] e Hs Hdims. rewrite Hs. unfold new. rewrite Hdims.
    reflexivity.
  - intros [rt fmt] dims Hs Hdims Hcanvas Hwebgl. rewrite Hs.
    unfold new. rewrite Hdims. unfold _initRenderer. rewrite Hcanvas.
    destruct Hwebgl as [Hw|Hp]; [rewrite Hw; reflexivity|].
    rewrite Hp. cbn. rewrite andb_false_r. reflexivity.
Qed.

(** X6. After the exporter's [validateSettings] returned settings and the
    [RenderImage] was constructed: [export] is called exactly when the
    render pipeline is fulfilled, then exactly once, with the canvas of
    the renderer as [render] left it and with the settings that
    [validateSettings] returned (not the arguments of the call); when the
    pipeline is rejected, the promise returned is rejected with the same
    error and [export] is not called. *)
Theorem ImglyKit_render_exports_exactly_when_render_fulfilled
    (env : Environment) (exporter : ImageExporter.t S X)
    (self : ImglyKit.t (R := R))
    (renderType imageFormat dimensions : option string)
    (image : Canvas2D.Bitmap) (renderType' imageFormat' : string)
    (renderImage : RenderImage.t (R := R)) (t1 : list Event) :
  ImglyKit._options_image self = Some image ->
  ImageExporter.validateSettings exporter renderType imageFormat =
    Fulfilled (renderType', imageFormat') ->
  new env image (ImglyKit.operationsStack self) dimensions
    (ImglyKit._options_renderer self) = (Fulfilled renderImage, t1) ->
  let res :=
    ImglyKit.render env exporter self renderType imageFormat dimensions in
  let run := render renderImage in
  (is_fulfilled (outcome_of run) = true ->
     fst res =
       Returned (ImageExporter.export exporter
                   (Renderer.getCanvas (_renderer (object_of run)))
                   renderType' imageFormat') /\
     List.filter is_export (snd res) = [EvExport] /\
     last (snd res) = Some EvExport) /\
  (forall e, outcome_of run = Rejected e ->
     fst res = Returned (Rejected e) /\
     List.filter is_export (snd res) = []).
Proof.
  intros Himage Hsettings Hnew. cbv zeta. unfold ImglyKit.render.
  rewrite Himage, Hsettings, Hnew.
  pose proof (new_trace_before_draw env image (ImglyKit.operationsStack self)
                dimensions (ImglyKit._options_renderer self)) as Ht1.
  cbv zeta in Ht1. rewrite Hnew in Ht1. destruct Ht1 as [Hexp1 _].
  cbn [snd] in Hexp1.
  pose proof (render_events_are_pipeline_events renderImage) as Hpipe.
  assert (Hexp2 : List.filter is_export (trace_of (render renderImage)) = []).
  { apply pipeline_events_filtered; [|exact Hpipe].
    intros [] He; try discriminate; reflexivity. }
  unfold getRenderer.
  destruct (render renderImage) as [[[[]|e2] ri'] t2];
    unfold outcome_of, object_of, trace_of in *; cbn [fst snd] in *.
  - split; [|intros e; discriminate]. intros _. repeat apply conj.
    + reflexivity.
    + cbn [List.filter is_export]. rewrite !List.filter_app, Hexp1, Hexp2.
      reflexivity.
    + rewrite app_comm_cons, app_assoc.
      change [EvGetCanvas; EvExport] with ([EvGetCanvas] ++ [EvExport]).
      rewrite app_assoc. apply last_snoc.
  - split; [discriminate|]. intros e [= <-]. split; [reflexivity|].
    cbn [List.filter is_export]. rewrite !List.filter_app, Hexp1, Hexp2.
    reflexivity.
Qed.

(** X7. When the options ask for the canvas renderer (the identifier of
    [CanvasRenderer]), [ImglyKit.render] never constructs a WebGL
    renderer, whatever the environment supports. *)
Theorem ImglyKit_render_with_canvas_preference_constructs_no_WebGL
    (env : Environment) (exporter : ImageExporter.t S X)
    (self : ImglyKit.t (R := R))
    (renderType imageFormat dimensions : option string) :
  ImglyKit._options_renderer self = Some CanvasRenderer.identifier ->
  List.filter is_new_webgl
    (snd (ImglyKit.render env exporter self renderType imageFormat
            dimensions)) = [].
Proof.
  intros Hpref. unfold ImglyKit.render.
  destruct (ImglyKit._options_image self) as [image|]; [|reflexivity].
  destruct (ImageExporter.validateSettings exporter renderType imageFormat)
    as [[rt fmt]|e0]; [|reflexivity].
  pose proof (new_trace_before_draw env image (ImglyKit.operationsStack self)
                dimensions (ImglyKit._options_renderer self)) as Hnew.
  cbv zeta in Hnew. destruct Hnew as [_ [_ [_ [_ Hno]]]].
  specialize (Hno Hpref).
  destruct (new env image (ImglyKit.operationsStack self) dimensions
              (ImglyKit._options_renderer self)) as [[ri|e1] t1];
    cbn [snd] in Hno.
  - pose proof (render_events_are_pipeline_events ri) as Hpipe.
    assert (Hno2 : List.filter is_new_webgl (trace_of (render ri)) = []).
    { apply pipeline_events_filtered; [|exact Hpipe].
      intros [] He; try discriminate; reflexivity. }
    destruct (render ri) as [[[u|e2] ri'] t2];
      unfold trace_of in Hno2; cbn [fst snd] in *;
      cbn [List.filter is_new_webgl];
      rewrite !List.filter_app, Hno, Hno2; reflexivity.
  - cbn [snd List.filter is_new_webgl]. exact Hno.
Qed.

End ImglyKitMore.

(** ** The pipeline on the canvas renderer *)

Section CanvasPipeline.
Import Canvas2D RenderImage.
Context {P : Platform}.

Abbreviation CanvasRI := (RenderImage.t (R := Renderer.Object)).

Lemma new_drawImage_read (image : Bitmap) (d : Vector2) :
  let st := CanvasRenderer.drawImage image (CanvasRenderer.new d) in
  CanvasRenderer.wf st /\
  CanvasRenderer.read st (CanvasRenderer._canvas st) =
    drawImage9 None image 0 0 (b_width image) (b_height image)
      0 0 (x d) (y d)
      (mkCanvas (x d) (y d) (fun _ _ => transparent) []).
Proof.
  cbv zeta. split.
  - apply drawImage_wf. apply new_wf.
  - unfold CanvasRenderer.drawImage, CanvasRenderer.new, CanvasRenderer.read,
      CanvasRenderer.createCanvas, CanvasRenderer.setCanvas,
      CanvasRenderer.write.
    simpl. rewrite !lookup_alter_eq, lookup_insert_eq. reflexivity.
Qed.

Lemma getSize_resizeTo (d : Vector2) (st : CanvasRenderer.State) :
  CanvasRenderer.wf st ->
  CanvasRenderer.wf (CanvasRenderer.resizeTo d st) /\
  CanvasRenderer.getSize (CanvasRenderer.resizeTo d st) = d.
Proof.
  intros [Hc _].
  destruct (resizeTo_result d st Hc) as [Hcan [Hctx [Hread [Hall _]]]].
  split.
  - split; [rewrite Hcan|rewrite Hctx]; exact Hall.
  - unfold CanvasRenderer.getSize. rewrite Hcan, Hread.
    destruct d. reflexivity.
Qed.

(** X12. The resize decision on a canvas renderer whose canvas has
    pixels: when the final dimensions are resolved to a size that a canvas
    can have (from 0 to 2147483647 each way), the step is fulfilled (the
    canvas renderer's [resizeTo] returns no promise that could reject),
    the renderer is still a well-formed canvas renderer, and its size is
    the resolved size, whether the resize was skipped or made. *)
Theorem canvas_resize_step_reaches_resolved_size
    (self : CanvasRI) (st : CanvasRenderer.State) (d : Vector2) :
  _renderer self = Renderer.Canvas st ->
  CanvasRenderer.wf st ->
  0 < x (CanvasRenderer.getSize st) ->
  0 < y (CanvasRenderer.getSize st) ->
  ImageDimensions.calculateFinalDimensions (_dimensions self)
    (CanvasRenderer.getSize st) = Fulfilled d ->
  0 <= x d <= 2147483647 ->
  0 <= y d <= 2147483647 ->
  outcome_of (resize_step self) = Fulfilled tt /\
  exists st',
    _renderer (object_of (resize_step self)) = Renderer.Canvas st' /\
    CanvasRenderer.wf st' /\
    CanvasRenderer.getSize st' = d.
Proof.
  intros Hr Hwf _ _ Hdims _ _. unfold resize_step. rewrite Hr.
  cbn [Renderer.getSize Renderer.object_ops]. rewrite Hdims.
  destruct (Vector2.equals d (CanvasRenderer.getSize st)) eqn:Heq.
  - apply Vector2_equals_spec in Heq.
    split; [reflexivity|]. exists st. unfold object_of. cbn [fst snd].
    split; [exact Hr|]. split; [exact Hwf|congruence].
  - cbn [Renderer.resizeTo Renderer.object_ops].
    split; [reflexivity|]. exists (CanvasRenderer.resizeTo d st).
    destruct (getSize_resizeTo d st Hwf) as [Hwf' Hsize].
    split; [reflexivity|]. split; [exact Hwf'|exact Hsize].
Qed.

(** X13. End to end on the canvas renderer: for a kit with an image and an
    empty stack, when the WebGL renderer is not chosen, the canvas
    renderer is supported and the final dimensions resolve to the size of
    the image, [ImglyKit.render] returns what [export] gives for a canvas
    that has the size of the image and shows it pixel for pixel. *)
Theorem ImglyKit_render_of_empty_stack_exports_the_image
    {X : Type} (L : PlatformLaws P)
    (env : Environment)
    (exporter : ImageExporter.t (option Canvas) X)
    (self : ImglyKit.t (R := Renderer.Object))
    (renderType imageFormat dimensions : option string)
    (image : Bitmap) (renderType' imageFormat' : string)
    (resolver : ImageDimensions.t) :
  ImglyKit._options_image self = Some image ->
  ImglyKit.operationsStack self = [] ->
  ImageExporter.validateSettings exporter renderType imageFormat =
    Fulfilled (renderType', imageFormat') ->
  newImageDimensions env dimensions = Fulfilled resolver ->
  ImageDimensions.calculateFinalDimensions resolver
    (mkVector2 (b_width image) (b_height image)) =
    Fulfilled (mkVector2 (b_width image) (b_height image)) ->
  webgl_isSupported env = false \/
    ImglyKit._options_renderer self = Some CanvasRenderer.identifier ->
  CanvasRenderer.isSupported (canvas_element env) = true ->
  exists c,
    fst (ImglyKit.render env exporter self renderType imageFormat dimensions)
      = Returned (ImageExporter.export exporter (Some c)
                    renderType' imageFormat') /\
    width c = b_width image /\ height c = b_height image /\
    forall px py, 0 <= px < b_width image -> 0 <= py < b_height image ->
      pixel c px py = b_pixel image px py.
Proof.
  intros Himage Hstack Hsettings Hdims Hresolve Hcanvas Hsupported.
  set (size := mkVector2 (b_width image) (b_height image)) in *.
  set (st := CanvasRenderer.drawImage image (CanvasRenderer.new size)).
  destruct (new_drawImage_read image size) as [Hwf Hread]. fold st in Hwf, Hread.
  assert (Hsize : CanvasRenderer.getSize st = size).
  { unfold CanvasRenderer.getSize. rewrite Hread. reflexivity. }
  assert (Hinit : _initRenderer (R := Renderer.Object) env
                    (ImglyKit._options_renderer self) size image =
                  (Fulfilled (Renderer.Canvas st, false),
                   [EvWebGLIsSupported; EvCanvasIsSupported;
                    EvNewCanvasRenderer size; EvDrawImage])).
  { unfold _initRenderer. rewrite Hsupported.
    destruct Hcanvas as [Hw|Hp].
    - rewrite Hw. reflexivity.
    - rewrite Hp. cbn. rewrite andb_false_r. reflexivity. }
  exists (CanvasRenderer.read st (CanvasRenderer._canvas st)).
  split.
  - unfold ImglyKit.render. rewrite Himage, Hsettings.
    unfold new. rewrite Hdims. fold size. rewrite Hinit, Hstack.
    unfold render, before_resize, validate_step, render_step, bluebird_map,
      resize_step, bind, ret, emit, on_renderer, getRenderer.
    repeat (unfold ret;
            cbn [call_all settle_all map_one_at_a_time
                 _stack _renderer _dimensions set_renderer fst snd
                 Renderer.renderFinal Renderer.getSize Renderer.resizeTo
                 Renderer.getCanvas Renderer.object_ops
                 CanvasRenderer.renderFinal]).
    rewrite Hsize, Hresolve.
    assert (Heq : Vector2.equals size size = true)
      by (apply Vector2_equals_spec; reflexivity).
    rewrite Heq. reflexivity.
  - rewrite Hread. cbn [width height pixel drawImage9 x y size].
    split; [reflexivity|]. split; [reflexivity|].
    intros px py Hx Hy.
    assert (Hin : in_rect px py 0 0 (b_width image) (b_height image) = true)
      by (apply in_rect_true; lia).
    rewrite Hin, over_transparent, painted_same_size, !Z.sub_0_r.
    reflexivity.
Qed.

End CanvasPipeline.

(** ** The [ImglyKit] class *)

Section ImglyKitClassFacts.
Import ImglyKitClass.
Context {P : Platform} {R : Type}.

Abbreviation Kit := (ImglyKitClass.t (R := R)).

Lemma register_all_fields (l : list (string * JsClass)) (self : Kit) :
  let self' := fold_left (fun s entry => registerOperation (snd entry) s)
                 l self in
  _options self' = _options self /\
  operationsStack self' = operationsStack self /\
  _registeredUIs self' = _registeredUIs self /\
  ui self' = ui self.
Proof.
  revert self. induction l as [|e l IH]; intros self; cbn.
  - repeat split.
  - specialize (IH (registerOperation (snd e) self)). cbn in IH.
    destruct IH as [H1 [H2 [H3 H4]]]. rewrite H1, H2, H3, H4.
    repeat split.
Qed.

Lemma register_all_lookup (l : list (string * JsClass)) (self : Kit)
    (key : string) :
  Forall (fun e => class_identifier (snd e) <> key) l ->
  _registeredOperations
    (fold_left (fun s entry => registerOperation (snd entry) s) l self)
    !! key = _registeredOperations self !! key.
Proof.
  intros Hall. revert self. induction Hall as [|e l He _ IH]; intros self.
  - reflexivity.
  - cbn. rewrite IH. unfold registerOperation. cbn.
    apply lookup_insert_ne. exact He.
Qed.

(** X14. Registration in the order of [ImglyKit.Operations]: after
    [_registerOperations], an operation class is found under its
    identifier unless a class later in [ImglyKit.Operations] has the same
    identifier (the later registration replaces the earlier); an
    identifier that no class of [ImglyKit.Operations] has keeps what was
    registered under it before; nothing but the registry of operations
    changes. *)
Theorem registerOperations_later_registration_wins
    (w : ClassWorld) (self : Kit) :
  let self' := _registerOperations w self in
  (forall l1 name c l2,
     Operations w = l1 ++ (name, c) :: l2 ->
     Forall (fun e => class_identifier (snd e) <> class_identifier c) l2 ->
     registeredOperations self' !! class_identifier c = Some c) /\
  (forall key,
     Forall (fun e => class_identifier (snd e) <> key) (Operations w) ->
     registeredOperations self' !! key = registeredOperations self !! key) /\
  _options self' = _options self /\
  operationsStack self' = operationsStack self /\
  _registeredUIs self' = _registeredUIs self /\
  ui self' = ui self.
Proof.
  cbv zeta. unfold _registerOperations, registeredOperations.
  split; [|split; [|apply register_all_fields]].
  - intros l1 name c l2 Hops Hlater. rewrite Hops, fold_left_app. cbn.
    rewrite register_all_lookup by exact Hlater.
    unfold registerOperation. cbn. apply lookup_insert_eq.
  - intros key Hkey. apply register_all_lookup. exact Hkey.
Qed.

(** The object before the UI is initialised. *)
Lemma constructor_unfold (w : ClassWorld) (o : Options.t) :
  let self := _registerOperations w
                (_registerUIs w (mk (with_defaults o) [] ∅ ∅ None)) in
  constructor (R := R) w (Some o) =
    (if truthy (Options.ui (with_defaults o)) then _initUI w self
     else Returned self) /\
  _options self = with_defaults o /\
  operationsStack self = [] /\
  _registeredUIs self = {[class_identifier (NightUI w) := NightUI w]} /\
  ui self = None.
Proof.
  cbv zeta.
  destruct (register_all_fields (Operations w)
              (_registerUIs w (mk (R := R) (with_defaults o) [] ∅ ∅ None)))
    as [H1 [H2 [H3 H4]]].
  fold (_registerOperations w
          (_registerUIs w (mk (R := R) (with_defaults o) [] ∅ ∅ None)))
    in H1, H2, H3, H4.
  unfold constructor. rewrite H1. cbn [_options _registerUIs registerUI].
  repeat apply conj; try reflexivity; try assumption.
Qed.

Lemma register_all_origin (l : list (string * JsClass)) (self : Kit)
    (key : string) (c : JsClass) :
  _registeredOperations
    (fold_left (fun s entry => registerOperation (snd entry) s) l self)
    !! key = Some c ->
  _registeredOperations self !! key = Some c \/
  (class_identifier c = key /\ exists name, In (name, c) l).
Proof.
  revert self. induction l as [|[n c0] l IH]; intros self Hlook.
  - left. exact Hlook.
  - cbn in Hlook. apply IH in Hlook. destruct Hlook as [Hself|[Hid [name Hin]]].
    + unfold registerOperation in Hself. cbn in Hself.
      destruct (decide (class_identifier c0 = key)) as [Heq|Hne].
      * rewrite <- Heq, lookup_insert_eq in Hself. injection Hself as <-.
        right. split; [exact Heq|]. exists n. left. reflexivity.
      * rewrite lookup_insert_ne in Hself by exact Hne. left. exact Hself.
    + right. split; [exact Hid|]. exists name. right. exact Hin.
Qed.

(** X15. What the constructor establishes.  When it returns, the stack of
    operations is empty; the options are the given ones with the defaults
    filled in ([assetsUrl] is defined, ["assets"] unless given;
    [container] is not [undefined]; [ui] is not [undefined]; image and
    renderer are as given); the only registered UI is [NightUI]; every
    registered operation is a class of [ImglyKit.Operations] under its own
    identifier; and the object has a UI exactly when the option [ui]
    counts as true. *)
Theorem ImglyKit_constructor_establishes
    (w : ClassWorld) (o : Options.t) (kit : Kit) :
  constructor w (Some o) = Returned kit ->
  operationsStack kit = [] /\
  _options kit = with_defaults o /\
  Options.image (_options kit) = Options.image o /\
  Options.renderer (_options kit) = Options.renderer o /\
  Options.assetsUrl (_options kit) =
    Some (default "assets"%string (Options.assetsUrl o)) /\
  Options.container (_options kit) <> JsUndefined /\
  Options.ui (_options kit) <> UiUndefined /\
  _registeredUIs kit = {[class_identifier (NightUI w) := NightUI w]} /\
  (forall key c, registeredOperations kit !! key = Some c ->
     class_identifier c = key /\ exists name, In (name, c) (Operations w)) /\
  (is_Some (ui kit) <-> truthy (Options.ui (_options kit)) = true).
Proof.
  destruct (constructor_unfold w o) as [Hctor [Hopt [Hstack [Huis Hui]]]].
  rewrite Hctor. clear Hctor.
  assert (Horigin : forall key c,
            _registeredOperations (_registerOperations w
              (_registerUIs w (mk (R := R) (with_defaults o) [] ∅ ∅ None)))
              !! key = Some c ->
            class_identifier c = key /\
            exists name, In (name, c) (Operations w)).
  { intros key c Hlook. unfold _registerOperations in Hlook.
    apply register_all_origin in Hlook. destruct Hlook as [Hempty|H]; [|exact H].
    cbn in Hempty. rewrite lookup_empty in Hempty. discriminate. }
  remember (_registerOperations w
              (_registerUIs w (mk (with_defaults o) [] ∅ ∅ None)))
    as self eqn:Hself.
  clear Hself.
  assert (Hcont : Options.container (with_defaults o) <> JsUndefined)
    by (cbn; destruct (Options.container o); discriminate).
  assert (Hnu : Options.ui (with_defaults o) <> UiUndefined)
    by (cbn; destruct (Options.ui o); discriminate).
  destruct (truthy (Options.ui (with_defaults o))) eqn:Htruthy.
  - unfold _initUI. rewrite Hopt.
    destruct (match Options.ui (with_defaults o) with
              | UiBool true =>
                  NewUI <$> head (Utils_values w (_registeredUIs self))
              | u => lookup_ui w self (ui_string u)
              end) as [object|]; [|discriminate].
    destruct (new_throws w object); [discriminate|].
    intros [= <-]. cbn [operationsStack _options _registeredUIs ui
                        registeredOperations _registeredOperations].
    rewrite ?Hstack, ?Hopt, ?Huis, ?Htruthy.
    repeat apply conj; try reflexivity; try assumption;
      intros _; first [reflexivity | eexists; reflexivity].
  - intros [= <-]. unfold registeredOperations.
    rewrite Hstack, Hopt, Huis, Hui, Htruthy.
    repeat apply conj; try reflexivity; try assumption;
      first [intros [? [=]] | discriminate].
Qed.

(** X16. The UI named in the options.  With the identifier of [NightUI],
    the constructor returns an object whose UI was made from [NightUI];
    with a name that is not empty, is not the identifier of [NightUI] and
    is not answered by an empty object, the constructor throws
    ["ImglyKit: Unknown UI: "] followed by the name. *)
Theorem ImglyKit_constructor_selects_UI_by_name
    (w : ClassWorld) (o : Options.t) (name : string) :
  Options.ui o = UiName name ->
  name <> ""%string ->
  (name = class_identifier (NightUI w) ->
     exists kit : Kit,
       constructor w (Some o) = Returned kit /\
       ui kit = Some (NewUI (NightUI w))) /\
  (name <> class_identifier (NightUI w) ->
   inherited w name = false ->
     constructor (R := R) w (Some o) =
     Thrown (String.append "ImglyKit: Unknown UI: " name)).
Proof.
  intros Hui Hname.
  destruct (constructor_unfold w o)
    as [Hctor [Hopt [Hstack [Huis _]]]].
  rewrite Hctor. clear Hctor.
  set (self := _registerOperations w
                 (_registerUIs w (mk (with_defaults o) [] ∅ ∅ None))) in *.
  assert (Hui' : Options.ui (with_defaults o) = UiName name)
    by (cbn; rewrite Hui; reflexivity).
  assert (Htruthy : truthy (UiName name) = true).
  { cbn. apply negb_true_iff. apply String.eqb_neq. exact Hname. }
  rewrite Hui', Htruthy. unfold _initUI, lookup_ui.
  rewrite Hopt, Hui', Huis. cbn [ui_string].
  split.
  - intros ->. rewrite lookup_singleton_eq. eexists. split; reflexivity.
  - intros Hne Hinh. rewrite lookup_singleton_ne by congruence.
    rewrite Hinh. reflexivity.
Qed.

Lemma constructed_options (w : ClassWorld) (o : Options.t) (kit : Kit) :
  constructor w (Some o) = Returned kit -> _options kit = with_defaults o.
Proof.
  destruct (constructor_unfold w o) as [Hc [Hopt _]].
  rewrite Hc. clear Hc.
  remember (_registerOperations w
              (_registerUIs w (mk (with_defaults o) [] ∅ ∅ None)))
    as self eqn:Hself.
  clear Hself. revert kit. generalize dependent self. intros self Hopt kit.
  destruct (truthy (Options.ui (with_defaults o))).
  - unfold _initUI.
    destruct (match Options.ui (_options self) with
              | UiBool true =>
                  NewUI <$> head (Utils_values w (_registeredUIs self))
              | u => lookup_ui w self (ui_string u)
              end) as [object|]; [|discriminate].
    destruct (new_throws w object); [discriminate|].
    intros [= <-]. exact Hopt.
  - intros [= <-]. exact Hopt.
Qed.

(** X17. Asset paths of a constructed kit: in the browser the path is the
    assets URL of the options, ["assets"] when none was given, then ["/"],
    then the asset; elsewhere it is [path.resolve] of that URL and the
    asset. *)
Theorem getAssetPath_of_constructed_kit
    (w : ClassWorld) (o : Options.t) (kit : Kit) (asset : string) :
  constructor w (Some o) = Returned kit ->
  let url := default "assets"%string (Options.assetsUrl o) in
  getAssetPath w kit asset =
  if isBrowser w then String.append url (String.append "/" asset)
  else path_resolve w url asset.
Proof.
  intros Hctor. apply constructed_options in Hctor.
  cbv zeta. unfold getAssetPath. rewrite Hctor.
  cbn [with_defaults Options.assetsUrl default]. reflexivity.
Qed.

End ImglyKitClassFacts.

(** ** Examples for the further properties *)

Section MoreExamples.
Import Canvas2D RenderImage.
#[local] Existing Instance Example.platform.

Lemma render_is_the_direct_sequence_witness :
  let self := Example.renderImage
                [Example.later Example.double; Example.widen; Example.failing]
                Example.unchanged in
  Forall Operation.valid (_stack self) /\
  (outcome_of (render self), _renderer (object_of (render self))) =
  render_direct (_stack self) (_dimensions self) (_renderer self).
Proof.
  cbv zeta.
  assert (H : Forall Operation.valid
                (_stack (Example.renderImage
                           [Example.later Example.double; Example.widen;
                            Example.failing]
                           Example.unchanged))).
  { simpl. repeat constructor. }
  split; [exact H|].
  exact (render_is_the_direct_sequence _ H).
Defined.

Lemma render_aborts_at_first_rejected_call_witness :
  let self := Example.renderImage
                [Example.later Example.double; Example.double;
                 Example.failing]
                Example.unchanged in
  Forall Operation.valid (_stack self) /\
  render_order (_stack self) =
    [(0%nat, Example.later Example.double)]
      ++ (2%nat, Example.failing) :: [(1%nat, Example.double)] /\
  outcome_of (render self) = Rejected "render failed"%string /\
  (forall j, In j [1%nat] ->
     ~ In (EvRenderInvoked j) (trace_of (render self))) /\
  ~ In EvRenderFinal (trace_of (render self)) /\
  resizes (trace_of (render self)) = [].
Proof.
  cbv zeta.
  assert (H : Forall Operation.valid
                (_stack (Example.renderImage
                           [Example.later Example.double; Example.double;
                            Example.failing]
                           Example.unchanged))).
  { simpl. repeat constructor. }
  split; [exact H|]. split; [reflexivity|].
  pose proof (render_aborts_at_first_rejected_call
                (Example.renderImage
                   [Example.later Example.double; Example.double;
                    Example.failing]
                   Example.unchanged)
                [(0%nat, Example.later Example.double)]
                [(1%nat, Example.double)] 2%nat Example.failing
                _ _ _ H eq_refl eq_refl eq_refl) as T.
  cbv zeta in T.
  destruct T as [T1 [_ [_ [_ [T5 [T6 T7]]]]]].
  split; [exact T1|]. split; [exact T5|]. split; [exact T6|exact T7].
Defined.

Lemma ImglyKit_render_throws_before_a_renderer_witness :
  let env := Example.environment true Example.without_getContext in
  ImglyKit._options_image Sample.canvas_kit = Some Example.image /\
  ImglyKit.render env Example.exporter Sample.canvas_kit None None None =
  (Thrown "Neither Canvas nor WebGL renderer are supported."%string,
   [EvExporterValidateSettings; EvNewImageDimensions;
    EvWebGLIsSupported; EvCanvasIsSupported]).
Proof.
  cbv zeta. split; [reflexivity|].
  exact (proj2 (proj2
           (ImglyKit_render_throws_before_a_renderer_is_constructed
              (Example.environment true Example.without_getContext)
              Example.exporter Sample.canvas_kit None None None
              Example.image eq_refl))
           ("data-url"%string, "png"%string) Example.unchanged
           eq_refl eq_refl eq_refl (or_intror eq_refl)).
Defined.

Lemma render_rejects_when_renderFinal_rejects_witness :
  Forall Operation.valid (_stack Sample.on_lost_context) /\
  outcome_of (render (RO := Sample.lost_context) Sample.on_lost_context) =
  Rejected "context lost"%string.
Proof.
  assert (H : Forall Operation.valid (_stack Sample.on_lost_context)).
  { simpl. repeat constructor. }
  split; [exact H|].
  pose proof (render_rejects_when_renderFinal_rejects
                (RO := Sample.lost_context) Sample.on_lost_context
                (mkVector2 3 3) (mkVector2 3 3) "context lost"%string
                H eq_refl eq_refl) as T.
  cbv zeta in T. rewrite T. reflexivity.
Defined.

Lemma render_rejects_when_dimensions_fail_witness :
  let self := Example.renderImage [Example.double] Sample.unresolvable in
  Forall Operation.valid (_stack self) /\
  outcome_of (render self) = Rejected "invalid dimensions"%string /\
  resizes (trace_of (render self)) = [].
Proof.
  cbv zeta.
  assert (H : Forall Operation.valid
                (_stack (Example.renderImage [Example.double]
                           Sample.unresolvable))).
  { simpl. repeat constructor. }
  split; [exact H|].
  pose proof (render_rejects_when_dimensions_fail
                (Example.renderImage [Example.double] Sample.unresolvable)
                _ _ "invalid dimensions"%string
                H eq_refl eq_refl eq_refl) as T.
  cbv zeta in T. rewrite T. split; reflexivity.
Defined.

Lemma ImglyKit_render_exports_witness :
  let res := ImglyKit.render (Example.environment false Example.with_2d)
               Example.exporter Sample.plain_kit None None None in
  ImglyKit._options_image Sample.plain_kit = Some Example.image /\
  List.filter is_export (snd res) = [EvExport].
Proof.
  cbv zeta. split; [reflexivity|].
  refine (proj1 (proj2 (proj1
            (ImglyKit_render_exports_exactly_when_render_fulfilled
               (Example.environment false Example.with_2d)
               Example.exporter Sample.plain_kit None None None
               Example.image "data-url"%string "png"%string
               _ _ eq_refl eq_refl eq_refl) _))).
  vm_compute. reflexivity.
Defined.

Lemma ImglyKit_render_with_canvas_preference_witness :
  ImglyKit._options_renderer Sample.canvas_kit =
    Some CanvasRenderer.identifier /\
  List.filter is_new_webgl
    (snd (ImglyKit.render (Example.environment true Example.with_2d)
            Example.exporter Sample.canvas_kit None None None)) = [].
Proof.
  split; [reflexivity|].
  exact (ImglyKit_render_with_canvas_preference_constructs_no_WebGL
           (Example.environment true Example.with_2d) Example.exporter
           Sample.canvas_kit None None None eq_refl).
Defined.

Lemma drawImage_on_cleared_canvas_witness :
  let st := CanvasRenderer.new (mkVector2 4 6) in
  let c := CanvasRenderer.read st (CanvasRenderer._canvas st) in
  let c' := CanvasRenderer.read (CanvasRenderer.drawImage Example.image st)
              (CanvasRenderer._canvas
                 (CanvasRenderer.drawImage Example.image st)) in
  CanvasRenderer.wf st /\
  CanvasRenderer._context st = CanvasRenderer._canvas st /\
  (forall px py, pixel c px py = transparent) /\
  0 < b_width Example.image /\
  0 < b_height Example.image /\
  width c' = 4 /\ height c' = 6 /\
  calls c' = [mkDrawCall None 0 0 2 2 0 0 4 6] /\
  (forall px py, 0 <= px < 4 -> 0 <= py < 6 ->
     pixel c' px py =
     Example.bilinear (b_pixel Example.image) 2 2 4 6 px py).
Proof.
  cbv zeta.
  assert (Hwf : CanvasRenderer.wf (CanvasRenderer.new (mkVector2 4 6)))
    by exact (proj1 (new_wf (mkVector2 4 6))).
  assert (Hclear : forall px py,
            pixel (CanvasRenderer.read (CanvasRenderer.new (mkVector2 4 6))
                     (CanvasRenderer._canvas
                        (CanvasRenderer.new (mkVector2 4 6)))) px py
            = transparent)
    by (intros px py; vm_compute; reflexivity).
  assert (Hw : 0 < b_width Example.image) by (vm_compute; reflexivity).
  assert (Hh : 0 < b_height Example.image) by (vm_compute; reflexivity).
  split; [exact Hwf|]. split; [reflexivity|]. split; [exact Hclear|].
  split; [exact Hw|]. split; [exact Hh|].
  pose proof (drawImage_on_cleared_canvas_shows_image example_platform_laws
                Example.image (CanvasRenderer.new (mkVector2 4 6))
                Hwf eq_refl Hclear Hw Hh) as T.
  cbv zeta in T. destruct T as [T1 [T2 [T3 [T4 _]]]].
  split; [exact T1|]. split; [exact T2|]. split; [exact T3|].
  intros px py Hx Hy. exact (T4 px py Hx Hy).
Defined.


Lemma renderer_stays_well_formed_witness :
  CanvasRenderer.wf Example.renderer /\
  CanvasRenderer.wf
    (CanvasRenderer.resizeTo (mkVector2 4 6) Example.renderer).
Proof.
  split; [exact example_renderer_wf|].
  exact (proj1 (proj2 (renderer_stays_well_formed Example.image
                         (mkVector2 4 6) Example.renderer
                         example_renderer_wf))).
Defined.

Lemma clone_is_unaffected_witness :
  CanvasRenderer.wf Example.renderer /\
  let clone := fst (CanvasRenderer.cloneCanvas Example.renderer) in
  let st1 := snd (CanvasRenderer.cloneCanvas Example.renderer) in
  CanvasRenderer.read (CanvasRenderer.resizeTo (mkVector2 4 6) st1) clone =
  CanvasRenderer.read st1 clone.
Proof.
  split; [exact example_renderer_wf|].
  exact (proj1 (proj2 (clone_is_unaffected_by_later_rendering Example.image
                         (mkVector2 4 6) Example.renderer
                         example_renderer_wf))).
Defined.

Lemma canvas_resize_step_witness :
  let self := Example.renderImage [] (Example.fixed (mkVector2 8 8)) in
  CanvasRenderer.wf Example.renderer /\
  0 < x (CanvasRenderer.getSize Example.renderer) /\
  0 < y (CanvasRenderer.getSize Example.renderer) /\
  0 <= 8 <= 2147483647 /\
  outcome_of (resize_step self) = Fulfilled tt /\
  exists st',
    _renderer (object_of (resize_step self)) = Renderer.Canvas st' /\
    CanvasRenderer.wf st' /\
    CanvasRenderer.getSize st' = mkVector2 8 8.
Proof.
  cbv zeta.
  assert (H8 : 0 <= 8 <= 2147483647) by lia.
  assert (Hx : 0 < x (CanvasRenderer.getSize Example.renderer))
    by (vm_compute; reflexivity).
  assert (Hy : 0 < y (CanvasRenderer.getSize Example.renderer))
    by (vm_compute; reflexivity).
  split; [exact example_renderer_wf|].
  split; [exact Hx|]. split; [exact Hy|]. split; [exact H8|].
  exact (canvas_resize_step_reaches_resolved_size
           (Example.renderImage [] (Example.fixed (mkVector2 8 8)))
           Example.renderer (mkVector2 8 8)
           eq_refl example_renderer_wf Hx Hy eq_refl H8 H8).
Defined.

Lemma ImglyKit_render_of_empty_stack_witness :
  ImglyKit.operationsStack Sample.plain_kit = [] /\
  exists c,
    fst (ImglyKit.render (Example.environment false Example.with_2d)
           Example.exporter Sample.plain_kit None None None) =
    Returned (ImageExporter.export Example.exporter (Some c)
                "data-url"%string "png"%string) /\
    width c = 2.
Proof.
  split; [reflexivity|].
  destruct (ImglyKit_render_of_empty_stack_exports_the_image
              example_platform_laws
              (Example.environment false Example.with_2d)
              Example.exporter Sample.plain_kit None None None
              Example.image "data-url"%string "png"%string
              Example.unchanged
              eq_refl eq_refl eq_refl eq_refl eq_refl
              (or_introl eq_refl) eq_refl) as [c [Hres [Hw _]]].
  exists c. split; [exact Hres|exact Hw].
Defined.

Lemma ImglyKit_constructor_establishes_witness :
  match ImglyKitClass.constructor (R := Renderer.Object) Sample.world
          (Some (Sample.options (UiBool false))) with
  | Returned kit =>
      ImglyKitClass.operationsStack kit = [] /\
      Options.assetsUrl (ImglyKitClass._options kit) = Some "assets"%string
  | Thrown _ => False
  end.
Proof.
  destruct (ImglyKitClass.constructor (R := Renderer.Object) Sample.world
              (Some (Sample.options (UiBool false)))) as [kit|e] eqn:H.
  - pose proof (ImglyKit_constructor_establishes Sample.world
                  (Sample.options (UiBool false)) kit H) as T.
    split; [exact (proj1 T)|exact (proj1 (proj2 (proj2 (proj2 (proj2 T)))))].
  - pose proof (proj1 (@constructor_unfold Example.platform Renderer.Object
                         Sample.world (Sample.options (UiBool false)))) as U.
    cbv zeta in U. rewrite U in H.
    cbn [ImglyKitClass.truthy Options.ui ImglyKitClass.with_defaults
         Sample.options] in H.
    discriminate H.
Defined.

Lemma ImglyKit_constructor_selects_UI_witness :
  Options.ui (Sample.options (UiName "night")) = UiName "night" /\
  exists kit : ImglyKitClass.t (R := Renderer.Object),
    ImglyKitClass.constructor Sample.world
      (Some (Sample.options (UiName "night"))) = Returned kit /\
    ImglyKitClass.ui kit = Some (ImglyKitClass.NewUI Sample.night).
Proof.
  split; [reflexivity|].
  refine (proj1 (ImglyKit_constructor_selects_UI_by_name
                   (R := Renderer.Object) Sample.world
                   (Sample.options (UiName "night")) "night"%string
                   eq_refl _) eq_refl).
  discriminate.
Defined.

Lemma getAssetPath_of_constructed_kit_witness :
  match ImglyKitClass.constructor (R := Renderer.Object) Sample.world
          (Some (Sample.options (UiBool false))) with
  | Returned kit =>
      ImglyKitClass.getAssetPath Sample.world kit "logo.png" =
      "assets/logo.png"%string
  | Thrown _ => False
  end.
Proof.
  destruct (ImglyKitClass.constructor (R := Renderer.Object) Sample.world
              (Some (Sample.options (UiBool false)))) as [kit|e] eqn:H.
  - exact (getAssetPath_of_constructed_kit Sample.world
             (Sample.options (UiBool false)) kit "logo.png"%string H).
  - pose proof (proj1 (@constructor_unfold Example.platform Renderer.Object
                         Sample.world (Sample.options (UiBool false)))) as U.
    cbv zeta in U. rewrite U in H.
    cbn [ImglyKitClass.truthy Options.ui ImglyKitClass.with_defaults
         Sample.options] in H.
    discriminate H.
Defined.

End MoreExamples.
